(** * AI-ResumeBuilder: the ATS scoring engine and the file-upload scorer

    A shallow embedding of
    - [ATSScorer] (backend/services/ats_scorer.py, given in
      ATS_SCORING_LOGIC.md): the five dimension scorers, the weighted
      aggregate and the feedback categorizer;
    - backend/routes/checker.py (same document): the two endpoints
      [analyze_resume] and [upload_resume];
    - netlify/functions/score-file.js: [scoreFromText],
      [extractTextFromUpload] and [handler].

    Modelling choices.
    - A string is the list of its code points (Python [str]) or of its
      UTF-16 code units (JavaScript), each an [N].
    - Python floats are read as exact rationals ([Q]): every constant of the
      scorers (100.0, 0.20, 0.3, ...) stands for the decimal fraction it
      spells, and [round(x, 1)] rounds the exact value half-to-even.  The
      code rounds the binary64 sum instead; the two differ when the exact
      sum is halfway between two tenths, and module [Binary64] gives the
      aggregate of [score_resume] on doubles for that comparison.
    - The character tables of the two runtimes (case mapping, [isupper],
      [isspace], the regex class [\d]) are not part of the repository; they
      are a class whose instances agree with Basic Latin on code points
      below 128.  [str.lower] is taken code point by code point.
    - [pdf-parse], [mammoth] and [Buffer] are the collaborators of
      score-file.js; the functions that call them take them as arguments. *)

From Stdlib Require Import Floats.
From Stdlib Require Import List Bool Arith NArith ZArith QArith Qround Qminmax Lia Lqa.
From Stdlib Require Import Ascii Permutation.
From Stdlib Require String DecimalString.
Import String.StringSyntax.
Delimit Scope string_scope with string.
Import ListNotations.

Set Implicit Arguments.

(* ================================================================= *)
(** ** Strings *)

Definition str := list N.

(** A literal as a list of code points; every literal below is ASCII. *)
Definition lit (s : String.string) : str :=
  List.map N_of_ascii (String.list_ascii_of_string s).
Arguments lit s%_string.

Fixpoint str_eqb (a b : str) : bool :=
  match a, b with
  | [], [] => true
  | x :: a', y :: b' => (x =? y)%N && str_eqb a' b'
  | _, _ => false
  end.

(** [p in xs] for a list of strings. *)
Definition mem (p : str) (xs : list str) : bool := existsb (str_eqb p) xs.

(** [s.startswith(p)] / [s.startsWith(p)]. *)
Fixpoint startswith (p s : str) : bool :=
  match p, s with
  | [], _ => true
  | _ :: _, [] => false
  | a :: p', b :: s' => (a =? b)%N && startswith p' s'
  end.

(** [p in s] / [s.includes(p)]: [p] occurs in [s] as a contiguous run. *)
Fixpoint contains (p s : str) : bool :=
  startswith p s ||
  match s with
  | [] => false
  | _ :: s' => contains p s'
  end.

(** Left-to-right scan counting non-overlapping matches: [matcher] gives the
    length of the match that starts at the current position, if any; after
    a match of length [n] the next [n - 1] positions are skipped. *)
Fixpoint scan (matcher : str -> option nat) (skip : nat) (s : str) : nat :=
  match s with
  | [] => 0
  | _ :: s' =>
      match skip with
      | S k => scan matcher k s'
      | O =>
          match matcher s with
          | Some n => S (scan matcher (n - 1) s')
          | None => scan matcher 0 s'
          end
      end
  end.

(** [s.count(p)]: non-overlapping occurrences; the empty pattern occurs
    [len(s) + 1] times. *)
Definition count (p s : str) : nat :=
  match p with
  | [] => S (length s)
  | _ => scan (fun t => if startswith p t then Some (length p) else None) 0 s
  end.

(** Splitting at every position whose character satisfies [sep]; empty
    pieces are kept, so the result is never empty. *)
Fixpoint split_by (sep : N -> bool) (s : str) : list str :=
  match s with
  | [] => [[]]
  | x :: s' =>
      if sep x then [] :: split_by sep s'
      else match split_by sep s' with
           | [] => [[x]]
           | l :: ls => (x :: l) :: ls
           end
  end.

(** [s.split(c)] for a one-character separator. *)
Definition split_on (c : N) (s : str) : list str := split_by (N.eqb c) s.

Definition nonempty (s : str) : bool :=
  match s with [] => false | _ => true end.

(** [sep.join(xs)]. *)
Fixpoint join (sep : str) (xs : list str) : str :=
  match xs with
  | [] => []
  | [x] => x
  | x :: rest => x ++ sep ++ join sep rest
  end.

(** [str(n)] of a non-negative integer. *)
Definition str_of_nat (n : nat) : str :=
  lit (DecimalString.NilEmpty.string_of_uint (Nat.to_uint n)).

(** [list(set(xs))]: the distinct elements.  The iteration order of a Python
    set is unspecified; the model keeps first occurrences in order. *)
Fixpoint distinct (xs : list str) : list str :=
  match xs with
  | [] => []
  | x :: rest => x :: filter (fun y => negb (str_eqb x y)) (distinct rest)
  end.

Definition NL : N := 10.
Definition AT : N := 64.

(* ================================================================= *)
(** ** Character tables of the runtimes *)

Definition ascii_upper (c : N) : bool := ((65 <=? c) && (c <=? 90))%N.
Definition ascii_lower (c : N) : bool := ((97 <=? c) && (c <=? 122))%N.
Definition ascii_tolower (c : N) : N := if ascii_upper c then (c + 32)%N else c.
Definition ascii_digit (c : N) : bool := ((48 <=? c) && (c <=? 57))%N.
Definition ascii_letter (c : N) : bool := ascii_upper c || ascii_lower c.
(** Whitespace below 128: TAB, LF, VT, FF, CR, FS, GS, RS, US, SPACE. *)
Definition ascii_space (c : N) : bool :=
  (((9 <=? c) && (c <=? 13)) || ((28 <=? c) && (c <=? 32)))%N.

Definition is_ascii (c : N) : Prop := (c < 128)%N.

(** What the scorers take from the Unicode database of the runtime. *)
Class Unicode := {
  (** the lower-case mapping of one code point ([str.lower],
      [String.prototype.toLowerCase]); it may be several code points *)
  cp_lower : N -> str;
  (** [Py_UNICODE_ISUPPER] *)
  cp_isupper : N -> bool;
  (** [Py_UNICODE_ISLOWER] or [Py_UNICODE_ISTITLE] *)
  cp_islower : N -> bool;
  (** [str.isspace] of one code point, the separators of [str.split()] *)
  cp_isspace : N -> bool;
  (** the regex class [\d] on [str] patterns: decimal digits *)
  cp_isdigit : N -> bool;
  cp_lower_ascii : forall c, is_ascii c -> cp_lower c = [ascii_tolower c];
  cp_isupper_ascii : forall c, is_ascii c -> cp_isupper c = ascii_upper c;
  cp_islower_ascii : forall c, is_ascii c -> cp_islower c = ascii_lower c;
  cp_isspace_ascii : forall c, is_ascii c -> cp_isspace c = ascii_space c;
  cp_isdigit_ascii : forall c, is_ascii c -> cp_isdigit c = ascii_digit c
}.

(** The table that knows Basic Latin only: other code points are caseless,
    not spaces and not digits. *)
Definition basic_latin : Unicode :=
  {| cp_lower := fun c => [ascii_tolower c];
     cp_isupper := ascii_upper;
     cp_islower := ascii_lower;
     cp_isspace := ascii_space;
     cp_isdigit := ascii_digit;
     cp_lower_ascii := fun _ _ => eq_refl;
     cp_isupper_ascii := fun _ _ => eq_refl;
     cp_islower_ascii := fun _ _ => eq_refl;
     cp_isspace_ascii := fun _ _ => eq_refl;
     cp_isdigit_ascii := fun _ _ => eq_refl |}.

Section PyStr.
Context {U : Unicode}.

(** [s.lower()] / [s.toLowerCase()]. *)
Definition lower (s : str) : str := flat_map cp_lower s.

(** [s.isupper()]: no lower-case or title-case character and at least
    one upper-case character. *)
Definition isupper (s : str) : bool :=
  forallb (fun c => negb (cp_islower c)) s && existsb cp_isupper s.

(** [s.split()]: the maximal runs of non-whitespace characters. *)
Definition split_ws (s : str) : list str :=
  filter nonempty (split_by cp_isspace s).
End PyStr.

(* ================================================================= *)
(** ** Numbers *)

Open Scope Q_scope.

Definition Qltb (a b : Q) : bool := negb (Qle_bool b a).

Definition Qnat (n : nat) : Q := inject_Z (Z.of_nat n).

(** [max(0, score)]. *)
Definition max0 (q : Q) : Q := if Qltb 0 q then q else 0.

(** Rounding to the nearest integer, ties to the even one. *)
Definition round_half_even (q : Q) : Z :=
  let f := Qfloor q in
  match Qcompare (q - inject_Z f) 0.5 with
  | Lt => f
  | Gt => (f + 1)%Z
  | Eq => if Z.even f then f else (f + 1)%Z
  end.

(** [round(q, 1)] of an exact value: the nearest whole number of tenths,
    ties to even. *)
Definition round1 (q : Q) : Q := inject_Z (round_half_even (q * 10)) / 10.

(* ================================================================= *)
(** ** ATSScorer: constants *)

Definition STRONG_VERBS : list str :=
  [ lit "led"; lit "designed"; lit "developed"; lit "implemented";
    lit "created"; lit "built"; lit "engineered"; lit "architected";
    lit "achieved"; lit "delivered"; lit "launched"; lit "spearheaded";
    lit "transformed"; lit "pioneered"; lit "revolutionized";
    lit "optimized"; lit "accelerated"; lit "improved"; lit "enhanced";
    lit "maximized"; lit "initiated"; lit "established"; lit "founded";
    lit "generated"; lit "increased"; lit "reduced"; lit "decreased";
    lit "managed"; lit "directed"; lit "oversaw" ].

Definition WEAK_VERBS : list str :=
  [ lit "worked"; lit "helped"; lit "did"; lit "made"; lit "responsible";
    lit "involved"; lit "participated"; lit "assisted"; lit "contributed";
    lit "collaborated" ].

(** The arrow, bullet, diamond, star, check mark, copyright, trade mark and
    registered signs, by code point. *)
Definition BULLET : N := 8226.
Definition ATS_BREAKING_CHARS : list str :=
  [ [8594%N]; [BULLET]; [9670%N]; [9733%N]; [10003%N]; [169%N]; [8482%N];
    [174%N] ].

Definition TECHNICAL_KEYWORDS : list str :=
  [ lit "python"; lit "java"; lit "javascript"; lit "c++"; lit "sql";
    lit "html"; lit "css"; lit "react"; lit "angular"; lit "vue";
    lit "fastapi"; lit "django"; lit "flask"; lit "aws"; lit "gcp";
    lit "azure"; lit "docker"; lit "kubernetes"; lit "jenkins"; lit "git";
    lit "github"; lit "gitlab"; lit "rest"; lit "api"; lit "microservices";
    lit "agile"; lit "scrum"; lit "jira"; lit "linux"; lit "windows";
    lit "mac" ].

(** U+2500, the box-drawing horizontal line. *)
Definition BOX_LINE : N := 9472.
(** U+200B zero-width space and U+FEFF byte-order mark. *)
Definition ZWSP : N := 8203.
Definition BOM : N := 65279.

(* ================================================================= *)
(** ** ATSScorer: the running score and feedback of one scorer *)

(** The two locals [score] and [feedback] that every scorer updates. *)
Record tally := { score : Q; feedback : list str }.

Definition start : tally := {| score := 100; feedback := [] |}.

(** [score += d]. *)
Definition add (d : Q) (t : tally) : tally :=
  {| score := score t + d; feedback := feedback t |}.

(** [score -= d]. *)
Definition sub (d : Q) (t : tally) : tally :=
  {| score := score t - d; feedback := feedback t |}.

(** [score = v]. *)
Definition set_score (v : Q) (t : tally) : tally :=
  {| score := v; feedback := feedback t |}.

(** [feedback.append(msg)]. *)
Definition say (msg : str) (t : tally) : tally :=
  {| score := score t; feedback := feedback t ++ [msg] |}.

(** [if b: f]. *)
Definition when (b : bool) (f : tally -> tally) (t : tally) : tally :=
  if b then f t else t.

(** Statements in sequence. *)
Definition seq (f g : tally -> tally) (t : tally) : tally := g (f t).
Notation "f ;; g" := (seq f g) (at level 61, left associativity).

(** [return max(0, score), feedback]. *)
Definition finish (t : tally) : Q * list str := (max0 (score t), feedback t).

(** [if b: f else: g]. *)
Definition if_else (b : bool) (f g : tally -> tally) (t : tally) : tally :=
  if b then f t else g t.

(** [for x in xs: body]. *)
Definition for_each {A} (xs : list A) (body : A -> tally -> tally)
  (t : tally) : tally :=
  fold_left (fun t x => body x t) xs t.

(* ================================================================= *)
(** ** ATSScorer: the regular expressions *)

(** Length of the longest prefix of [s] whose characters are in [cls]. *)
Fixpoint run (cls : N -> bool) (s : str) : nat :=
  match s with
  | c :: s' => if cls c then S (run cls s') else 0
  | [] => 0
  end.

Definition one_of (cs : str) (c : N) : bool := existsb (N.eqb c) cs.

(** The first alternative that matches, in the order written. *)
Fixpoint first_match (alts : list (str -> option nat)) (s : str) : option nat :=
  match alts with
  | [] => None
  | m :: rest =>
      match m s with
      | Some n => Some n
      | None => first_match rest s
      end
  end.

(** [re.search]: a match starting at some position. *)
Fixpoint search (m : str -> bool) (s : str) : bool :=
  m s ||
  match s with
  | [] => false
  | _ :: s' => search m s'
  end.

Section Regex.
Context {U : Unicode}.

(** [\d+[\%\+\-]?] *)
Definition metric_number (s : str) : option nat :=
  let d := run cp_isdigit s in
  if (d =? 0)%nat then None
  else match skipn d s with
       | c :: _ => if one_of (lit "%+-") c then Some (S d) else Some d
       | [] => Some d
       end.

(** [\$[\d\.,]+] *)
Definition metric_money (s : str) : option nat :=
  match s with
  | c :: s' =>
      if (c =? 36)%N then
        let r := run (fun x => cp_isdigit x || one_of (lit ".,") x) s' in
        if (r =? 0)%nat then None else Some (S r)
      else None
  | [] => None
  end.

(** [[\d\.]+ [A-Za-z]+]: the greedy run of digits and dots can only be
    followed by the space at its very end, so giving characters back never
    helps. *)
Definition metric_unit (s : str) : option nat :=
  let r := run (fun x => cp_isdigit x || (x =? 46)%N) s in
  if (r =? 0)%nat then None
  else match skipn r s with
       | c :: rest =>
           if (c =? 32)%N then
             let l := run ascii_letter rest in
             if (l =? 0)%nat then None else Some (r + 1 + l)%nat
           else None
       | [] => None
       end.

(** [len(re.findall(r'\d+[\%\+\-]?|\$[\d\.,]+|[\d\.]+ [A-Za-z]+', text))] *)
Definition count_metrics (text : str) : nat :=
  scan (first_match [metric_number; metric_money; metric_unit]) 0 text.

(** Exactly [n] digits, returning the rest. *)
Fixpoint digits (n : nat) (s : str) : option str :=
  match n with
  | O => Some s
  | S k =>
      match s with
      | c :: s' => if cp_isdigit c then digits k s' else None
      | [] => None
      end
  end.

(** [[-\.]?]: a separator is taken when present; a digit cannot stand in
    its place, so the match without it need not be tried. *)
Definition opt_sep (s : str) : str :=
  match s with
  | c :: s' => if one_of (lit "-.") c then s' else s
  | [] => s
  end.

(** [\d{3}[-\.]?\d{3}[-\.]?\d{4}] at the start of [s]. *)
Definition phone_at (s : str) : bool :=
  match digits 3 s with
  | Some s1 =>
      match digits 3 (opt_sep s1) with
      | Some s2 =>
          match digits 4 (opt_sep s2) with
          | Some _ => true
          | None => false
          end
      | None => false
      end
  | None => false
  end.

End Regex.

(* ================================================================= *)
(** ** ATSScorer: the five dimension scorers *)

(** A Python [dict] with string keys, in insertion order. *)
Definition dict := list (str * list str).

Fixpoint dict_get (key : str) (d : dict) (default : list str) : list str :=
  match d with
  | [] => default
  | (k, v) :: rest => if str_eqb k key then v else dict_get key rest default
  end.

Record verb_counts := {
  strong_verb_count : nat;
  weak_verb_count : nat;
  no_verb_count : nat
}.

Section ATSScorer.
Context {U : Unicode}.

Definition _score_formatting (text : str) : Q * list str :=
  let breaking_chars_found :=
    filter (fun ch => contains ch text) ATS_BREAKING_CHARS in
  let lines := split_on NL text in
  finish
    ((when (negb (length breaking_chars_found =? 0)%nat)
        (sub 10 ;;
         say (lit "Remove special characters: "
              ++ join (lit ", ") breaking_chars_found)) ;;
      when (contains (lit "|") text || contains [BOX_LINE] text)
        (sub 15 ;;
         say (lit "Tables detected - ATS may not parse correctly. Use text format instead.")) ;;
      when (contains [ZWSP] text || contains [BOM] text)
        (sub 10 ;; say (lit "Hidden characters detected. Clean up encoding.")) ;;
      when (length lines <? 10)%nat
        (sub 5 ;; say (lit "Resume seems too short. Add more content.")) ;;
      when (100 <? length lines)%nat
        (sub 5 ;;
         say (lit "Resume seems too long. Consider condensing to 1-2 pages.")) ;;
      when (contains (lit "  ") text)
        (sub 3 ;; say (lit "Remove extra spaces between words.")))
     start).

Definition stopwords : list str :=
  [ lit "the"; lit "a"; lit "an"; lit "and"; lit "or"; lit "in"; lit "at";
    lit "to"; lit "for"; lit "of"; lit "is"; lit "was"; lit "are" ].

Definition _extract_keywords (text : str) : list str :=
  filter (fun w => (3 <? length w)%nat && negb (mem w stopwords))
         (split_ws text).

(** The keyword-ratio penalty, as the [if]/[elif] chain of the source. *)
Definition penalize_missing (match_rate score : Q) : Q :=
  if Qltb match_rate 0.3 then score - 30
  else if Qltb match_rate 0.5 then score - 15
  else if Qltb match_rate 0.7 then score - 5
  else score.

Definition _score_keywords (resume_text job_description : str) : Q * dict :=
  let resume_lower := lower resume_text in
  if nonempty job_description then
    let jd_lower := lower job_description in
    let jd_keywords := _extract_keywords jd_lower in
    let resume_keywords := _extract_keywords resume_lower in
    let matched_keywords :=
      filter (fun keyword => mem keyword resume_keywords) jd_keywords in
    let missing_keywords :=
      filter (fun keyword => negb (mem keyword resume_keywords)) jd_keywords in
    let match_rate :=
      Qnat (length matched_keywords) / Qnat (Nat.max (length jd_keywords) 1) in
    let score := penalize_missing match_rate (match_rate * 100) in
    (max0 score,
     [ (lit "matched", distinct matched_keywords);
       (lit "missing", distinct missing_keywords) ])
  else
    let found_keywords :=
      filter (fun keyword => contains keyword resume_lower)
             TECHNICAL_KEYWORDS in
    let score :=
      if (length found_keywords =? 0)%nat then 100 - 30
      else if (length found_keywords <? 3)%nat then 100 - 15
      else 100 in
    (max0 score,
     [ (lit "matched", distinct found_keywords);
       (lit "missing", distinct []) ]).

(** The body of the loop over the lines of the text. *)
Definition count_verbs (v : verb_counts) (line : str) : verb_counts :=
  let line_lower := lower line in
  if (length line <? 5)%nat || isupper line then v
  else
    let has_strong :=
      existsb (fun verb => contains verb line_lower) STRONG_VERBS in
    let has_weak :=
      existsb (fun verb => contains verb line_lower) WEAK_VERBS in
    if has_strong then
      {| strong_verb_count := S (strong_verb_count v);
         weak_verb_count := weak_verb_count v;
         no_verb_count := no_verb_count v |}
    else if has_weak then
      {| strong_verb_count := strong_verb_count v;
         weak_verb_count := S (weak_verb_count v);
         no_verb_count := no_verb_count v |}
    else
      {| strong_verb_count := strong_verb_count v;
         weak_verb_count := weak_verb_count v;
         no_verb_count := S (no_verb_count v) |}.

Definition passive_indicators : list str :=
  [ lit "was "; lit "were "; lit "been "; lit "is "; lit "are " ].

Definition _score_impact (text : str) : Q * list str :=
  let lines := split_on NL text in
  let v := fold_left count_verbs lines
             {| strong_verb_count := 0; weak_verb_count := 0;
                no_verb_count := 0 |} in
  let total_bullets :=
    (strong_verb_count v + weak_verb_count v + no_verb_count v)%nat in
  let strong_percent :=
    Qnat (strong_verb_count v) / Qnat total_bullets * 100 in
  let weak_percent := Qnat (weak_verb_count v) / Qnat total_bullets * 100 in
  let metrics := count_metrics text in
  let passive_count :=
    list_sum (map (fun indicator => count indicator text)
                  passive_indicators) in
  finish
    ((when (0 <? total_bullets)%nat
        (set_score (strong_percent * 0.5 + (100 - weak_percent) * 0.5) ;;
         when (Qltb 50 weak_percent)
           (say (lit "Weak verbs detected (" ++ str_of_nat (weak_verb_count v)
                 ++ lit " instances). Replace 'worked', 'helped', 'involved' with stronger verbs like 'led', 'designed', 'achieved'."))) ;;
      when (metrics <? 3)%nat
        (sub 20 ;;
         say (lit "Add quantifiable metrics. Include numbers: percentages, dollars, scale, timeline.")) ;;
      when (5 <? passive_count)%nat
        (sub 10 ;;
         say (lit "Reduce passive voice. Prefer active voice (e.g., 'Led' vs 'Was responsible for').")))
     start).

Definition _score_content (text : str) : Q * list str :=
  let sections_required :=
    [ lit "experience"; lit "education"; lit "skills" ] in
  let text_lower := lower text in
  let sections_found :=
    (if contains (lit "experience") text_lower
        || contains (lit "employment") text_lower
     then [ lit "experience" ] else [])
    ++ (if contains (lit "education") text_lower
           || contains (lit "degree") text_lower
        then [ lit "education" ] else [])
    ++ (if contains (lit "skills") text_lower
           || contains (lit "technical") text_lower
        then [ lit "skills" ] else []) in
  finish
    ((for_each sections_required (fun section =>
        when (negb (mem section sections_found))
          (sub 20 ;;
           say (lit "Missing '" ++ section
                ++ lit "' section. Add it to improve completeness."))) ;;
      if_else (contains (lit "summary") text_lower
               || contains (lit "objective") text_lower
               || contains (lit "profile") text_lower)
        (add 5)
        (say (lit "Consider adding a professional summary (2-3 sentences).")) ;;
      when (negb (contains [AT] text))
        (sub 10 ;;
         say (lit "Missing email address. Add your contact information.")) ;;
      when (negb (search phone_at text))
        (say (lit "Consider adding phone number for completeness.")))
     start).

Definition _score_structure (text : str) : Q * list str :=
  let lines := split_on NL text in
  let headings :=
    filter (fun line => isupper line && (length line <? 30)%nat) lines in
  let long_lines := filter (fun line => (100 <? length line)%nat) lines in
  let bullet_count :=
    (count [BULLET] text + count (lit "-") text + count (lit "*") text)%nat in
  let word_count := length (split_ws text) in
  finish
    ((when (length headings <? 3)%nat
        (sub 15 ;;
         say (lit "Use clear section headings in CAPS (e.g., EXPERIENCE, EDUCATION, SKILLS).")) ;;
      when (Qltb (Qnat (length lines) * 0.3) (Qnat (length long_lines)))
        (sub 10 ;;
         say (lit "Some lines are very long. Break them into smaller chunks for readability.")) ;;
      when (bullet_count =? 0)%nat
        (sub 20 ;;
         say (lit "Use bullet points (" ++ [BULLET]
              ++ lit ") to structure information. Improves readability and ATS parsing.")) ;;
      if_else (word_count <? 200)%nat
        (sub 10 ;; say (lit "Resume seems short. Add more relevant content."))
        (when (1500 <? word_count)%nat
           (sub 10 ;;
            say (lit "Resume seems long. Aim for 1-2 pages (200-1000 words)."))))
     start).

End ATSScorer.

(* ================================================================= *)
(** ** ATSScorer: categorizing the feedback and the report *)

(** An argument of [_categorize_issues]: the caller passes four feedback
    lists and the dictionary returned by [_score_keywords]. *)
Inductive feedback_arg :=
| PyList (items : list str)
| PyDict (d : dict).

(** Truth value of a list or dict: non-empty. *)
Definition truthy (a : feedback_arg) : bool :=
  match a with
  | PyList items => negb (length items =? 0)%nat
  | PyDict d => negb (length d =? 0)%nat
  end.

(** What [for item in a] yields: the elements of a list, the keys of a
    dict. *)
Definition iterate (a : feedback_arg) : list str :=
  match a with
  | PyList items => items
  | PyDict d => map fst d
  end.

(** The three lists [_categorize_issues] appends to. *)
Record issues := {
  critical_issues : list str;
  warnings : list str;
  improvements : list str
}.

Definition critical_words : list str :=
  [ lit "missing"; lit "remove"; lit "avoid"; lit "breaks" ].

Definition improvement_words : list str :=
  [ lit "consider"; lit "try"; lit "reduce" ].

Record dimension := { d_score : Q; d_feedback : list str }.

Record keywords_dimension := {
  k_score : Q;
  k_matched : list str;
  k_missing : list str
}.

Record breakdown_t := {
  formatting : dimension;
  keywords : keywords_dimension;
  impact : dimension;
  content : dimension;
  structure : dimension
}.

Record report := {
  overall_score : Q;
  breakdown : breakdown_t;
  report_issues : issues
}.

Section Report.
Context {U : Unicode}.

(** The body of the inner loop. *)
Definition categorize_item (acc : issues) (item : str) : issues :=
  if existsb (fun x => contains x (lower item)) critical_words then
    {| critical_issues := critical_issues acc ++ [item];
       warnings := warnings acc;
       improvements := improvements acc |}
  else if existsb (fun x => contains x (lower item)) improvement_words then
    {| critical_issues := critical_issues acc;
       warnings := warnings acc;
       improvements := improvements acc ++ [item] |}
  else
    {| critical_issues := critical_issues acc;
       warnings := warnings acc ++ [item];
       improvements := improvements acc |}.

Definition _categorize_issues (feedback_lists : list feedback_arg) : issues :=
  fold_left
    (fun acc feedback_list =>
       if negb (truthy feedback_list) then acc
       else fold_left categorize_item (iterate feedback_list) acc)
    feedback_lists
    {| critical_issues := []; warnings := []; improvements := [] |}.

Definition score_resume (resume_text job_description : str) : report :=
  let '(formatting_score, formatting_feedback) :=
    _score_formatting resume_text in
  let '(keywords_score, keywords_data) :=
    _score_keywords resume_text job_description in
  let '(impact_score, impact_feedback) := _score_impact resume_text in
  let '(content_score, content_feedback) := _score_content resume_text in
  let '(structure_score, structure_feedback) :=
    _score_structure resume_text in
  let overall :=
    formatting_score * 0.20 + keywords_score * 0.30 + impact_score * 0.20
    + content_score * 0.20 + structure_score * 0.10 in
  let categorized :=
    _categorize_issues
      [ PyList formatting_feedback; PyDict keywords_data;
        PyList impact_feedback; PyList content_feedback;
        PyList structure_feedback ] in
  {| overall_score := round1 overall;
     breakdown :=
       {| formatting :=
            {| d_score := formatting_score;
               d_feedback := formatting_feedback |};
          keywords :=
            {| k_score := keywords_score;
               k_matched := dict_get (lit "matched") keywords_data [];
               k_missing := dict_get (lit "missing") keywords_data [] |};
          impact :=
            {| d_score := impact_score; d_feedback := impact_feedback |};
          content :=
            {| d_score := content_score; d_feedback := content_feedback |};
          structure :=
            {| d_score := structure_score;
               d_feedback := structure_feedback |} |};
     report_issues := categorized |}.

End Report.

(* ================================================================= *)
(** ** score_resume: the aggregate on binary64 values *)

Module Binary64.

(** The decimal constants of the code are read as the nearest doubles. *)
Set Warnings "-inexact-float".

(** The exact value of a finite double: sign, mantissa and exponent. *)
Definition exact (x : float) : Q :=
  match Prim2SF x with
  | SpecFloat.S754_finite negative m e =>
      let magnitude :=
        if (0 <=? e)%Z then inject_Z (Z.pos m * 2 ^ e)
        else inject_Z (Z.pos m) / inject_Z (2 ^ (- e)) in
      if negative then - magnitude else magnitude
  | _ => 0
  end.

(** [formatting_score * 0.20 + keywords_score * 0.30 + impact_score * 0.20
    + content_score * 0.20 + structure_score * 0.10]: every product and
    every sum, left to right, rounded to the nearest double. *)
Definition weighted_sum
  (formatting_score keywords_score impact_score content_score
     structure_score : float) : float :=
  (formatting_score * 0.20 + keywords_score * 0.30 + impact_score * 0.20
   + content_score * 0.20 + structure_score * 0.10)%float.

(** [round(x, 1)] of a double: its exact value rounded to a whole number of
    tenths, ties to even; the double returned is the one nearest to that
    decimal, which is kept here as a rational. *)
Definition round_1 (x : float) : Q := round1 (exact x).

(** [round(overall_score, 1)] from the five scores as doubles. *)
Definition overall
  (formatting_score keywords_score impact_score content_score
     structure_score : float) : Q :=
  round_1 (weighted_sum formatting_score keywords_score impact_score
             content_score structure_score).

End Binary64.
Arguments Binary64.exact x%_float.
Arguments Binary64.overall (_ _ _ _ _)%_float.

Close Scope Q_scope.

(* ================================================================= *)
(** ** netlify/functions/score-file.js *)

Definition bytes := list Byte.byte.

(** The result of an awaited call: the value, or the error thrown. *)
Inductive outcome (A : Type) :=
| Returned (a : A)
| Thrown (message : str).
Arguments Returned {A} a.
Arguments Thrown {A} message.

Definition bind {A B} (m : outcome A) (k : A -> outcome B) : outcome B :=
  match m with
  | Returned a => k a
  | Thrown e => Thrown e
  end.
Notation "x <- m ;;; k" := (bind m (fun x => k))
  (at level 62, m at next level, right associativity).

(** A property that may be absent: a string or [undefined]. *)
Inductive jsval :=
| undefined
| jsstring (s : str).

(** [!v]: [undefined] and the empty string are falsy. *)
Definition falsy (v : jsval) : bool :=
  match v with
  | undefined => true
  | jsstring s => negb (nonempty s)
  end.

(** [v || ""]. *)
Definition or_empty (v : jsval) : str :=
  match v with
  | undefined => []
  | jsstring s => s
  end.

(** WhiteSpace and LineTerminator code points of ECMAScript, which
    [String.prototype.trim] removes. *)
Definition js_whitespace (c : N) : bool :=
  (((9 <=? c) && (c <=? 13)) || (c =? 32) || (c =? 160) || (c =? 5760)
   || ((8192 <=? c) && (c <=? 8202)) || (c =? 8232) || (c =? 8233)
   || (c =? 8239) || (c =? 8287) || (c =? 12288) || (c =? 65279))%N.

Fixpoint drop_while (p : N -> bool) (s : str) : str :=
  match s with
  | c :: s' => if p c then drop_while p s' else s
  | [] => []
  end.

(** [s.trim()]. *)
Definition trim (s : str) : str :=
  rev (drop_while js_whitespace (rev (drop_while js_whitespace s))).

Definition DOT : N := 46.

(** The second bullet marker of the source file, the three code units
    U+00E2 U+20AC U+00A2. *)
Definition BULLET_MARK : str := [226%N; 8364%N; 162%N].

Module ScoreFile.

Record result := { score : Z; feedback : list str }.

(** [if (b) { score += pts; } else { feedback.push(msg); }] *)
Definition credit (b : bool) (pts : Z) (msg : str) (r : result) : result :=
  if b then {| score := score r + pts; feedback := feedback r |}
  else {| score := score r; feedback := feedback r ++ [msg] |}.

Inductive body :=
| NoBody
| ErrorBody (error : str)
| ScoreBody (r : result).

(** The response object; its headers are constants and are left out. *)
Record response := { statusCode : Z; payload : body }.

Definition jsonResponse (statusCode : Z) (payload : body) : response :=
  {| statusCode := statusCode; payload := payload |}.

(** The event as the handler reads it: the method, and the body after
    [JSON.parse] and destructuring ([None] when parsing throws). *)
Record event := {
  httpMethod : str;
  parsed_body : option (jsval * jsval)
}.

Section Functions.
Context {U : Unicode}.

(** The collaborators of score-file.js: Node's [Buffer] and the two
    extraction libraries.  [pdfParse] stands for the [text] property of the
    value [pdf-parse] resolves to, [extractRawText] for the [value] property
    of mammoth's result; either call may reject. *)
Variable toString_utf8 : bytes -> str.
Variable from_base64 : str -> bytes.
Variable pdfParse : bytes -> outcome jsval.
Variable extractRawText : bytes -> outcome jsval.

Definition scoreFromText (text : str) : result :=
  let normalized := lower text in
  let bulletLines :=
    filter (fun line => startswith (lit "-") line
                        || startswith BULLET_MARK line)
           (map trim (split_on NL text)) in
  let r := {| score := 50; feedback := [] |} in
  let r := credit (800 <=? length text)%nat 10
             (lit "Add more detail (aim for 350-500 words).") r in
  let r := credit (contains (lit "skills") normalized) 8
             (lit "Include a dedicated skills section.") r in
  let r := credit
             (existsb (fun keyword => contains keyword normalized)
                [ lit "experience"; lit "work history"; lit "employment" ])
             12
             (lit "Add an experience section with impact-focused bullets.")
             r in
  let r := credit
             (existsb (fun keyword => contains keyword normalized)
                [ lit "education"; lit "degree"; lit "university";
                  lit "college" ])
             6 (lit "Add education details.") r in
  let r := credit (5 <=? length bulletLines)%nat 10
             (lit "Use more bullet points to highlight achievements.") r in
  let r := credit (contains (lit "@") normalized) 5
             (lit "Add an email address for contact info.") r in
  let score := Z.min (score r) 100 in
  let feedback :=
    if (length (feedback r) =? 0)%nat then
      feedback r
      ++ [ lit "Resume looks solid. Customize it for the target role and keywords." ]
    else feedback r in
  {| score := score; feedback := feedback |}.

(** [filename.includes(".") ? filename.split(".").pop().toLowerCase() : ""] *)
Definition extension_of (filename : str) : str :=
  if contains (lit ".") filename
  then lower (last (split_on DOT filename) [])
  else [].

Definition extractTextFromUpload (filename : str) (content : bytes)
  : outcome str :=
  let extension := extension_of filename in
  if str_eqb extension (lit "txt") || str_eqb extension (lit "md") then
    Returned (toString_utf8 content)
  else if str_eqb extension (lit "pdf") then
    data_text <- pdfParse content ;;;
    Returned (or_empty data_text)
  else if str_eqb extension (lit "docx") then
    result_value <- extractRawText content ;;;
    Returned (or_empty result_value)
  else Thrown (lit "Unsupported file type.").

Definition handler (ev : event) : response :=
  if str_eqb (httpMethod ev) (lit "OPTIONS") then
    {| statusCode := 204; payload := NoBody |}
  else if negb (str_eqb (httpMethod ev) (lit "POST")) then
    jsonResponse 405 (ErrorBody (lit "Method not allowed."))
  else
    match parsed_body ev with
    | None => jsonResponse 400 (ErrorBody (lit "Invalid JSON payload."))
    | Some (filename, contentBase64) =>
        if falsy filename || falsy contentBase64 then
          jsonResponse 400 (ErrorBody (lit "Missing filename or file content."))
        else
          match extractTextFromUpload (or_empty filename)
                  (from_base64 (or_empty contentBase64)) with
          | Thrown _ => jsonResponse 400 (ErrorBody (lit "Unable to read file."))
          | Returned text => jsonResponse 200 (ScoreBody (scoreFromText text))
          end
    end.

End Functions.
End ScoreFile.

(* ================================================================= *)
(** ** backend/routes/checker.py: the upload endpoint *)

Module Checker.

Inductive exn :=
| HTTPException (status_code : Z) (detail : str)
| Error.

(** A computation that returns or raises. *)
Inductive raising (A : Type) :=
| Return (a : A)
| Raise (e : exn).
Arguments Return {A} a.
Arguments Raise {A} e.

(** [s.endswith(suffix)]. *)
Definition endswith (suffix s : str) : bool :=
  startswith (rev suffix) (rev s).

Section Endpoint.

(** [services/resume_parser.py] is not part of the sources: its two methods
    and [bytes.decode] are arguments. *)
Variable parse_pdf : bytes -> raising str.
Variable parse_docx : bytes -> raising str.
Variable decode_utf8 : bytes -> raising str.

(** The body of the [try] block. *)
Definition parse_upload (filename : str) (content : bytes) : raising str :=
  if endswith (lit ".pdf") filename then parse_pdf content
  else if endswith (lit ".docx") filename then parse_docx content
  else if endswith (lit ".txt") filename then decode_utf8 content
  else Raise (HTTPException 400 (lit "Unsupported file format")).

(** [except Exception] catches every exception of the body, the
    [HTTPException] it raises itself included. *)
Definition upload_resume (filename : str) (content : bytes) : raising str :=
  match parse_upload filename content with
  | Return text => Return text
  | Raise _ => Raise (HTTPException 500 (lit "Failed to parse resume"))
  end.

End Endpoint.
End Checker.

(* ================================================================= *)
(** ** backend/routes/checker.py: the analysis endpoint *)

(** [AnalysisRequest]: the job description is optional. *)
Record AnalysisRequest := {
  resume_text : str;
  job_description : option str
}.

Section Analyze.
Context {U : Unicode}.

(** The body of the [try] block of [analyze_resume];
    [request.job_description or ""] is the description or the empty
    string. *)
Definition analyze_body (request : AnalysisRequest) : Checker.raising report :=
  if (length (resume_text request) <? 100)%nat then
    Checker.Raise (Checker.HTTPException 400 (lit "Resume text too short"))
  else
    Checker.Return
      (score_resume (resume_text request)
         (match job_description request with
          | Some jd => jd
          | None => []
          end)).

(** [except Exception] catches every exception of the body. *)
Definition analyze_resume (request : AnalysisRequest) : Checker.raising report :=
  match analyze_body request with
  | Checker.Return analysis => Checker.Return analysis
  | Checker.Raise _ =>
      Checker.Raise
        (Checker.HTTPException 500 (lit "Failed to analyze resume"))
  end.

End Analyze.

(* ================================================================= *)
(** ** Vocabulary of the statements *)

(** [p] occurs in [s]: [s] is [p] with something before and after. *)
Definition occurs_in (p s : str) : Prop :=
  exists pre post, s = pre ++ p ++ post.

(** Everything [for item in a] goes through, over all the arguments. *)
Definition all_items (feedback_lists : list feedback_arg) : list str :=
  flat_map iterate feedback_lists.

(** The feedback strings of the dimension results of a report; the
    keywords result has the matched and missing lists and no feedback. *)
Definition dimension_feedback (r : report) : list str :=
  d_feedback (formatting (breakdown r))
  ++ d_feedback (impact (breakdown r))
  ++ d_feedback (content (breakdown r))
  ++ d_feedback (structure (breakdown r)).

(** The first character is an upper-case Basic Latin letter. *)
Definition capitalised (s : str) : Prop :=
  match s with
  | c :: _ => ascii_upper c = true
  | [] => False
  end.

(** A step of a scorer keeps a property of all its feedback strings. *)
Definition keeps (P : str -> Prop) (f : tally -> tally) : Prop :=
  forall t, Forall P (feedback t) -> Forall P (feedback (f t)).

(** The penalty of a match ratio: the first tier that applies, none from
    0.7 on. *)
Definition penalty_tier (ratio penalty : Q) : Prop :=
  (ratio < 0.3 /\ penalty = 30)%Q
  \/ (0.3 <= ratio /\ ratio < 0.5 /\ penalty = 15)%Q
  \/ (0.5 <= ratio /\ ratio < 0.7 /\ penalty = 5)%Q
  \/ (0.7 <= ratio /\ penalty = 0)%Q.

(** The weak resume of test_ats_scorer.py, and one of the feedback strings
    the content scorer gives for it. *)
Definition weak_resume : str :=
  lit "Worked on various projects and helped team.".

Definition missing_email : str :=
  lit "Missing email address. Add your contact information.".

(** A resume of 21 lines and 262 words: three heading lines, fifteen bullet
    lines with strong verbs, figures and technical keywords, then the three
    section headings. *)
Definition polished_resume : str :=
  join [NL]
    ([ lit "JOHN DOE"; lit "JOHN@EXAMPLE.COM"; lit "SUMMARY" ]
     ++ repeat
          (lit "- Led python, java and docker teams and delivered 40% growth for 3 products in 2 years")
          15
     ++ [ lit "EXPERIENCE"; lit "EDUCATION"; lit "SKILLS" ]).

(** The extensions [extractTextFromUpload] dispatches on. *)
Definition supported_extensions : list str :=
  [ lit "txt"; lit "md"; lit "pdf"; lit "docx" ].

(** Collaborators for the sample runs: a payload of 7-bit characters
    decodes byte by byte; a parse that succeeds and finds no text; a parse
    that rejects the payload. *)
Definition decode_7bit (content : bytes) : str := map Byte.to_N content.

Definition finds_no_text (content : bytes) : outcome jsval :=
  Returned undefined.

Definition rejects (content : bytes) : outcome jsval :=
  Thrown (lit "Invalid PDF structure").

(** The first bytes of a PDF file, [%PDF-]. *)
Definition pdf_header : bytes :=
  [ Byte.x25; Byte.x50; Byte.x44; Byte.x46; Byte.x2d ].

(** Base64, as [Buffer.from(s, 'base64')] reads it: characters outside the
    alphabet are skipped, the first [=] ends the data, and an incomplete
    last group gives the bytes it determines. *)
Definition sextet (c : N) : option N :=
  if ascii_upper c then Some (c - 65)%N
  else if ascii_lower c then Some (c - 71)%N
  else if ascii_digit c then Some (c + 4)%N
  else if ((c =? 43) || (c =? 45))%N then Some 62%N
  else if ((c =? 47) || (c =? 95))%N then Some 63%N
  else None.

Fixpoint sextets (s : str) : list N :=
  match s with
  | [] => []
  | c :: s' =>
      if (c =? 61)%N then []
      else match sextet c with
           | Some v => v :: sextets s'
           | None => sextets s'
           end
  end.

Definition byte_of (n : N) : Byte.byte :=
  match Byte.of_N (n mod 256) with
  | Some b => b
  | None => Byte.x00
  end.

Fixpoint octets (l : list N) : bytes :=
  match l with
  | a :: b :: c :: d :: rest =>
      byte_of (a * 4 + b / 16) :: byte_of (b * 16 + c / 4)
      :: byte_of (c * 64 + d) :: octets rest
  | [a; b; c] => [ byte_of (a * 4 + b / 16); byte_of (b * 16 + c / 4) ]
  | [a; b] => [ byte_of (a * 4 + b / 16) ]
  | _ => []
  end.

Definition decode_base64 (s : str) : bytes := octets (sextets s).

(** [pdf_header] in base64. *)
Definition pdf_header_base64 : str := lit "JVBERi0=".

(** The strong resume line and the job description of
    test_ats_scorer.py. *)
Definition sample_resume_line : str := lit "Python developer with FastAPI".

Definition sample_job_description : str :=
  lit "Seeking Senior Python developer with FastAPI and AWS experience.".

(** The POST event carrying a file name and a base64 payload. *)
Definition post (filename contentBase64 : str) : ScoreFile.event :=
  {| ScoreFile.httpMethod := lit "POST";
     ScoreFile.parsed_body :=
       Some (jsstring filename, jsstring contentBase64) |}.

(** The state of [scoreFromText] between two checks: the score is between
    [lo] and [hi], and it is [hi] as long as no feedback was pushed. *)
Definition credited (lo hi : Z) (r : ScoreFile.result) : Prop :=
  (lo <= ScoreFile.score r <= hi)%Z
  /\ (ScoreFile.feedback r = [] -> ScoreFile.score r = hi).

Section Vocabulary.
Context {U : Unicode}.

(** The two tests of [categorize_item]. *)
Definition is_critical (item : str) : bool :=
  existsb (fun x => contains x (lower item)) critical_words.

Definition is_improvement (item : str) : bool :=
  existsb (fun x => contains x (lower item)) improvement_words.

(** The lower-cased [item] contains one of [words]. *)
Definition mentions (words : list str) (item : str) : Prop :=
  exists w, In w words /\ occurs_in w (lower item).

(** The lower-cased text contains one of [names]. *)
Definition has_any (names : list str) (text : str) : bool :=
  existsb (fun name => contains name (lower text)) names.

(** The content score in closed form: 100, minus 20 for each of the three
    sections not found, plus 5 for a summary, minus 10 without an at sign,
    floored at 0 and not capped. *)
Definition content_score_of
  (experience education skills summary email : bool) : Q :=
  max0 (100 - (if experience then 0 else 20) - (if education then 0 else 20)
        - (if skills then 0 else 20) + (if summary then 5 else 0)
        - (if email then 0 else 10))%Q.

End Vocabulary.

(** A job description of short words only, and a resume that repeats the
    sample job description. *)
Definition short_job_description : str := lit "Go and C on AWS".



(** [s.trimEnd()], the second half of [trim]. *)
Definition trim_end (s : str) : str :=
  rev (drop_while js_whitespace (rev s)).

(** The test [scoreFromText] makes on a trimmed line. *)
Definition is_bullet (line : str) : bool :=
  startswith (lit "-") line || startswith BULLET_MARK line.

(** The score of [scoreFromText] from its six tests. *)
Definition upload_points (long skills experience education bullets email : bool)
  : Z :=
  Z.min
    (50 + (if long then 10 else 0) + (if skills then 8 else 0)
     + (if experience then 12 else 0) + (if education then 6 else 0)
     + (if bullets then 10 else 0) + (if email then 5 else 0))
    100.

(** [f] stays true when text is appended to its argument. *)
Definition grows (f : str -> bool) : Prop :=
  forall l m, f l = true -> f (l ++ m) = true.

(** [f] keeps the running score at or below [hi]. *)
Definition keeps_below (hi : Q) (f : tally -> tally) : Prop :=
  forall t, (score t <= hi)%Q -> (score (f t) <= hi)%Q.


Section ImpactVocabulary.
Context {U : Unicode}.

(** A line [_score_impact] looks at: at least five characters and not
    upper-case. *)
Definition classifiable (line : str) : bool :=
  negb ((length line <? 5)%nat || isupper line).

(** The lower-cased line contains one of [verbs]. *)
Definition has_verb (verbs : list str) (line : str) : bool :=
  existsb (fun verb => contains verb (lower line)) verbs.

(** What [_score_impact] deducts after the verbs: 20 for fewer than three
    metrics, 10 for more than five passive indicators. *)
Definition impact_deductions (text : str) : Q :=
  ((if (count_metrics text <? 3)%nat then 20 else 0)
   + (if (5 <? list_sum (map (fun indicator => count indicator text)
                           passive_indicators))%nat
      then 10 else 0))%Q.

End ImpactVocabulary.



(* ================================================================= *)
(** * Properties *)

(** ** Strings *)

Lemma str_eqb_eq (a b : str) : str_eqb a b = true <-> a = b.
Proof.
  revert b; induction a as [|x a IH]; intros [|y b]; simpl;
    try (split; congruence).
  rewrite andb_true_iff, N.eqb_eq, IH.
  split; [intros [-> ->]; reflexivity | intros [= -> ->]; auto].
Qed.

Lemma mem_In (p : str) (xs : list str) : mem p xs = true <-> In p xs.
Proof.
  unfold mem; rewrite existsb_exists; split.
  - intros (x & Hx & E); apply str_eqb_eq in E; subst; assumption.
  - intros H; exists p; split; [assumption | now apply str_eqb_eq].
Qed.

Lemma startswith_prefix (p s : str) :
  startswith p s = true <-> exists post, s = p ++ post.
Proof.
  revert s; induction p as [|a p IH]; intros s; simpl.
  - split; [intros _; now exists s | reflexivity].
  - destruct s as [|b s].
    + split; [discriminate | intros (post & E); discriminate].
    + rewrite andb_true_iff, N.eqb_eq, IH; split.
      * intros (-> & post & ->); now exists post.
      * intros (post & [= -> ->]); split; [reflexivity | now exists post].
Qed.

Lemma contains_occurs (p s : str) : contains p s = true <-> occurs_in p s.
Proof.
  unfold occurs_in; induction s as [|c s IH]; simpl.
  - rewrite orb_false_r, startswith_prefix; split.
    + intros (post & E); now exists [], post.
    + intros (pre & post & E).
      destruct pre; [now exists post | discriminate].
  - rewrite orb_true_iff, startswith_prefix, IH; split.
    + intros [(post & E) | (pre & post & E)].
      * now exists [], post.
      * exists (c :: pre), post; simpl; now rewrite E.
    + intros ([|x pre] & post & E).
      * left; now exists post.
      * right; injection E as -> ->; now exists pre, post.
Qed.

Lemma occurs_in_app_l (p s t : str) : occurs_in p s -> occurs_in p (s ++ t).
Proof.
  intros (pre & post & ->); exists pre, (post ++ t).
  now rewrite <- !app_assoc.
Qed.

Lemma contains_app_l (p s t : str) :
  contains p s = true -> contains p (s ++ t) = true.
Proof. rewrite !contains_occurs; apply occurs_in_app_l. Qed.

Lemma contains_char (c : N) (s : str) : contains [c] s = true <-> In c s.
Proof.
  induction s as [|x s IH]; simpl; [intuition discriminate|].
  rewrite orb_true_iff, IH, andb_true_r, N.eqb_eq; intuition.
Qed.

Section StringFacts.
Context {U : Unicode}.

Lemma lower_app (a b : str) : lower (a ++ b) = lower a ++ lower b.
Proof. apply flat_map_app. Qed.

(** On Basic Latin text [lower] is the ASCII mapping, whatever the table. *)
Lemma lower_ascii (s : str) :
  Forall is_ascii s -> lower s = map ascii_tolower s.
Proof.
  induction 1 as [|c s Hc _ IH]; simpl; [reflexivity|].
  now rewrite (cp_lower_ascii Hc), IH.
Qed.

End StringFacts.

Lemma all_ascii (s : str) :
  forallb (fun c => (c <? 128)%N) s = true -> Forall is_ascii s.
Proof.
  rewrite forallb_forall, Forall_forall; intros H c Hc.
  now apply N.ltb_lt, H.
Qed.

(* ================================================================= *)
(** ** The categorizer *)

Section Categorizer.
Context {U : Unicode}.

Lemma existsb_mentions (words : list str) (item : str) :
  existsb (fun x => contains x (lower item)) words = true
  <-> mentions words item.
Proof.
  unfold mentions; rewrite existsb_exists.
  split; intros (w & Hw & H); exists w; split; auto;
    now apply contains_occurs.
Qed.

Lemma categorize_items (items : list str) (acc : issues) :
  let out := fold_left categorize_item items acc in
  critical_issues out = critical_issues acc ++ filter is_critical items
  /\ improvements out
     = improvements acc
       ++ filter (fun i => negb (is_critical i) && is_improvement i) items
  /\ warnings out
     = warnings acc
       ++ filter (fun i => negb (is_critical i) && negb (is_improvement i))
            items.
Proof.
  revert acc; induction items as [|item items IH]; intros acc; simpl.
  - now rewrite !app_nil_r.
  - destruct (IH (categorize_item acc item)) as (Hc & Hi & Hw).
    rewrite Hc, Hi, Hw; unfold categorize_item.
    fold (is_critical item); fold (is_improvement item).
    destruct (is_critical item), (is_improvement item); simpl;
      rewrite <- ?app_assoc; auto.
Qed.

Lemma falsy_iterates_nothing (a : feedback_arg) :
  truthy a = false -> iterate a = [].
Proof. destruct a as [[|]|[|]]; simpl; congruence. Qed.

Lemma categorize_all (feedback_lists : list feedback_arg) (acc : issues) :
  let step := fun acc feedback_list =>
    if negb (truthy feedback_list) then acc
    else fold_left categorize_item (iterate feedback_list) acc in
  let out := fold_left step feedback_lists acc in
  critical_issues out
  = critical_issues acc ++ filter is_critical (all_items feedback_lists)
  /\ improvements out
     = improvements acc
       ++ filter (fun i => negb (is_critical i) && is_improvement i)
            (all_items feedback_lists)
  /\ warnings out
     = warnings acc
       ++ filter (fun i => negb (is_critical i) && negb (is_improvement i))
            (all_items feedback_lists).
Proof.
  revert acc; induction feedback_lists as [|a rest IH]; intros acc; simpl.
  - now rewrite !app_nil_r.
  - destruct (IH (if negb (truthy a) then acc
                  else fold_left categorize_item (iterate a) acc))
      as (Hc & Hi & Hw).
    rewrite Hc, Hi, Hw, !filter_app, !app_assoc.
    destruct (truthy a) eqn:T; simpl.
    + destruct (categorize_items (iterate a) acc) as (Hc' & Hi' & Hw').
      now rewrite Hc', Hi', Hw'.
    + rewrite (falsy_iterates_nothing a T); simpl.
      now rewrite !app_nil_r.
Qed.

(** The three lists are the three classes of the items, in order. *)
Lemma _categorize_issues_filter (feedback_lists : list feedback_arg) :
  let out := _categorize_issues feedback_lists in
  critical_issues out = filter is_critical (all_items feedback_lists)
  /\ improvements out
     = filter (fun i => negb (is_critical i) && is_improvement i)
         (all_items feedback_lists)
  /\ warnings out
     = filter (fun i => negb (is_critical i) && negb (is_improvement i))
         (all_items feedback_lists).
Proof. apply (categorize_all feedback_lists). Qed.

End Categorizer.

(* ================================================================= *)
(** ** What the scorers say *)

Section Keeps.
Variable P : str -> Prop.

Lemma keeps_add (d : Q) : keeps P (add d).
Proof. intros t H; exact H. Qed.

Lemma keeps_sub (d : Q) : keeps P (sub d).
Proof. intros t H; exact H. Qed.

Lemma keeps_set_score (v : Q) : keeps P (set_score v).
Proof. intros t H; exact H. Qed.

Lemma keeps_say (msg : str) : P msg -> keeps P (say msg).
Proof.
  intros Hm t H; simpl; apply Forall_app; split; [exact H|].
  constructor; [exact Hm | constructor].
Qed.

Lemma keeps_seq (f g : tally -> tally) :
  keeps P f -> keeps P g -> keeps P (f ;; g).
Proof. intros Hf Hg t H; apply Hg, Hf, H. Qed.

Lemma keeps_when (b : bool) (f : tally -> tally) :
  keeps P f -> keeps P (when b f).
Proof. intros Hf t H; unfold when; destruct b; [apply Hf|]; exact H. Qed.

Lemma keeps_if_else (b : bool) (f g : tally -> tally) :
  keeps P f -> keeps P g -> keeps P (if_else b f g).
Proof. intros Hf Hg t H; unfold if_else; destruct b; [apply Hf|apply Hg]; exact H. Qed.

Lemma keeps_for_each {A} (xs : list A) (body : A -> tally -> tally) :
  (forall x, keeps P (body x)) -> keeps P (for_each xs body).
Proof.
  intros Hb; unfold for_each.
  induction xs as [|x xs IH]; intros t H; simpl; [exact H|].
  apply IH, Hb, H.
Qed.

Lemma keeps_finish (f : tally -> tally) :
  keeps P f -> Forall P (snd (finish (f start))).
Proof. intros Hf; simpl; apply Hf; constructor. Qed.

End Keeps.

Ltac keeps_steps :=
  lazymatch goal with
  | |- keeps _ (_ ;; _) => apply keeps_seq; keeps_steps
  | |- keeps _ (when _ _) => apply keeps_when; keeps_steps
  | |- keeps _ (if_else _ _ _) => apply keeps_if_else; keeps_steps
  | |- keeps _ (for_each _ _) => apply keeps_for_each; intros ?; keeps_steps
  | |- keeps _ (sub _) => apply keeps_sub
  | |- keeps _ (add _) => apply keeps_add
  | |- keeps _ (set_score _) => apply keeps_set_score
  | |- keeps _ (say _) => apply keeps_say; exact eq_refl
  end.

Section Capitalised.
Context {U : Unicode}.

Lemma _score_formatting_capitalised (text : str) :
  Forall capitalised (snd (_score_formatting text)).
Proof. unfold _score_formatting; apply keeps_finish; keeps_steps. Qed.

Lemma _score_impact_capitalised (text : str) :
  Forall capitalised (snd (_score_impact text)).
Proof. unfold _score_impact; apply keeps_finish; keeps_steps. Qed.

Lemma _score_content_capitalised (text : str) :
  Forall capitalised (snd (_score_content text)).
Proof. unfold _score_content; apply keeps_finish; keeps_steps. Qed.

Lemma _score_structure_capitalised (text : str) :
  Forall capitalised (snd (_score_structure text)).
Proof. unfold _score_structure; apply keeps_finish; keeps_steps. Qed.

End Capitalised.

(* ================================================================= *)
(** ** The report *)

Section ReportFacts.
Context {U : Unicode}.

Lemma score_resume_issues (text jd : str) :
  report_issues (score_resume text jd)
  = _categorize_issues
      [ PyList (snd (_score_formatting text));
        PyDict (snd (_score_keywords text jd));
        PyList (snd (_score_impact text));
        PyList (snd (_score_content text));
        PyList (snd (_score_structure text)) ].
Proof.
  unfold score_resume.
  destruct (_score_formatting text), (_score_keywords text jd),
    (_score_impact text), (_score_content text), (_score_structure text).
  reflexivity.
Qed.

Lemma score_resume_feedback (text jd : str) :
  dimension_feedback (score_resume text jd)
  = snd (_score_formatting text) ++ snd (_score_impact text)
    ++ snd (_score_content text) ++ snd (_score_structure text).
Proof.
  unfold score_resume, dimension_feedback.
  destruct (_score_formatting text), (_score_keywords text jd),
    (_score_impact text), (_score_content text), (_score_structure text).
  reflexivity.
Qed.

(** The keys of the dictionary [_score_keywords] returns. *)
Lemma _score_keywords_keys (text jd : str) :
  map fst (snd (_score_keywords text jd)) = [ lit "matched"; lit "missing" ].
Proof. unfold _score_keywords; destruct (nonempty jd); reflexivity. Qed.

(** What the categorizer iterates over when [score_resume] calls it. *)
Lemma score_resume_items (text jd : str) :
  all_items
    [ PyList (snd (_score_formatting text));
      PyDict (snd (_score_keywords text jd));
      PyList (snd (_score_impact text));
      PyList (snd (_score_content text));
      PyList (snd (_score_structure text)) ]
  = snd (_score_formatting text)
    ++ [ lit "matched"; lit "missing" ]
    ++ snd (_score_impact text) ++ snd (_score_content text)
    ++ snd (_score_structure text).
Proof.
  unfold all_items; simpl.
  now rewrite _score_keywords_keys, app_nil_r.
Qed.

Lemma feedback_is_iterated (text jd item : str) :
  In item (dimension_feedback (score_resume text jd)) ->
  In item
    (all_items
       [ PyList (snd (_score_formatting text));
         PyDict (snd (_score_keywords text jd));
         PyList (snd (_score_impact text));
         PyList (snd (_score_content text));
         PyList (snd (_score_structure text)) ]).
Proof.
  rewrite score_resume_feedback, score_resume_items, !in_app_iff.
  intuition.
Qed.

(** Membership in the three lists of a report, for a string the
    categorizer went through. *)
Lemma report_lists (text jd item : str) :
  let i := report_issues (score_resume text jd) in
  let seen :=
    all_items
      [ PyList (snd (_score_formatting text));
        PyDict (snd (_score_keywords text jd));
        PyList (snd (_score_impact text));
        PyList (snd (_score_content text));
        PyList (snd (_score_structure text)) ] in
  (In item (critical_issues i) <-> In item seen /\ is_critical item = true)
  /\ (In item (improvements i)
      <-> In item seen /\ is_critical item = false
          /\ is_improvement item = true)
  /\ (In item (warnings i)
      <-> In item seen /\ is_critical item = false
          /\ is_improvement item = false).
Proof.
  cbv zeta; rewrite score_resume_issues.
  match goal with
  | |- context [_categorize_issues ?l] =>
      destruct (_categorize_issues_filter l) as (-> & -> & ->)
  end.
  rewrite !filter_In, !andb_true_iff, !negb_true_iff; tauto.
Qed.

Lemma capitalised_feedback (text jd item : str) :
  In item (dimension_feedback (score_resume text jd)) -> capitalised item.
Proof.
  rewrite score_resume_feedback, !in_app_iff.
  pose proof (_score_formatting_capitalised text) as Hf.
  pose proof (_score_impact_capitalised text) as Hi.
  pose proof (_score_content_capitalised text) as Hc.
  pose proof (_score_structure_capitalised text) as Hs.
  rewrite Forall_forall in Hf, Hi, Hc, Hs.
  intuition.
Qed.

Lemma is_critical_missing : is_critical (lit "missing") = true.
Proof.
  unfold is_critical; rewrite lower_ascii by (apply all_ascii; reflexivity).
  reflexivity.
Qed.

Lemma is_warning_matched :
  is_critical (lit "matched") = false /\ is_improvement (lit "matched") = false.
Proof.
  unfold is_critical, is_improvement.
  rewrite lower_ascii by (apply all_ascii; reflexivity).
  split; reflexivity.
Qed.

End ReportFacts.

Lemma round1_comp (a b : Q) : (a == b)%Q -> round1 a = round1 b.
Proof.
  intros E; unfold round1, round_half_even.
  assert (E10 : (a * 10 == b * 10)%Q) by now rewrite E.
  rewrite (Qfloor_comp _ _ E10).
  assert (Ec : (a * 10 - inject_Z (Qfloor (b * 10))
                == b * 10 - inject_Z (Qfloor (b * 10)))%Q) by now rewrite E10.
  assert (Eq : Qcompare (a * 10 - inject_Z (Qfloor (b * 10))) 0.5
               = Qcompare (b * 10 - inject_Z (Qfloor (b * 10))) 0.5)
    by now rewrite Ec.
  now rewrite Eq.
Qed.

(* ================================================================= *)
(** ** Claims about the report *)

(** C4. Every feedback string of a dimension result is in exactly one of
    the lists critical_issues, warnings, improvements of the report. *)
Theorem feedback_in_exactly_one_list {U : Unicode} (text jd item : str) :
  In item (dimension_feedback (score_resume text jd)) ->
  let i := report_issues (score_resume text jd) in
  (In item (critical_issues i)
   /\ ~ In item (warnings i) /\ ~ In item (improvements i))
  \/ (~ In item (critical_issues i)
      /\ In item (warnings i) /\ ~ In item (improvements i))
  \/ (~ In item (critical_issues i)
      /\ ~ In item (warnings i) /\ In item (improvements i)).
Proof.
  intros H; apply feedback_is_iterated in H.
  destruct (report_lists text jd item) as (Hc & Hi & Hw).
  cbv zeta in *; rewrite Hc, Hi, Hw.
  destruct (is_critical item), (is_improvement item);
    intuition congruence.
Qed.

(** C5. A feedback string of a dimension scorer is critical exactly when
    its lower-cased form contains one of missing, remove, avoid, breaks;
    otherwise an improvement exactly when it contains one of consider, try,
    reduce; otherwise a warning.  The list a string goes to depends on the
    string alone. *)
Theorem feedback_classification {U : Unicode} (text jd item : str) :
  In item (dimension_feedback (score_resume text jd)) ->
  let i := report_issues (score_resume text jd) in
  (In item (critical_issues i) <-> mentions critical_words item)
  /\ (In item (improvements i)
      <-> ~ mentions critical_words item
          /\ mentions improvement_words item)
  /\ (In item (warnings i)
      <-> ~ mentions critical_words item
          /\ ~ mentions improvement_words item).
Proof.
  intros H; apply feedback_is_iterated in H.
  destruct (report_lists text jd item) as (Hc & Hi & Hw).
  cbv zeta in *; rewrite Hc, Hi, Hw.
  unfold is_critical, is_improvement.
  rewrite <- !existsb_mentions.
  destruct (existsb _ critical_words), (existsb _ improvement_words);
    intuition congruence.
Qed.

(** C9. Whatever the input, critical_issues contains the string missing and
    warnings contains the string matched: the categorizer iterates over the
    keys of the keywords dictionary.  Neither is a feedback string of a
    dimension result. *)
Theorem dictionary_keys_are_categorized {U : Unicode} (text jd : str) :
  let r := score_resume text jd in
  In (lit "missing") (critical_issues (report_issues r))
  /\ In (lit "matched") (warnings (report_issues r))
  /\ ~ In (lit "missing") (dimension_feedback r)
  /\ ~ In (lit "matched") (dimension_feedback r).
Proof.
  cbv zeta.
  destruct (report_lists text jd (lit "missing")) as (Hc & _ & _).
  destruct (report_lists text jd (lit "matched")) as (_ & _ & Hw).
  cbv zeta in *; rewrite Hc, Hw, score_resume_items, !in_app_iff.
  destruct is_warning_matched as (E1 & E2).
  repeat split.
  - right; left; right; left; reflexivity.
  - exact is_critical_missing.
  - right; left; left; reflexivity.
  - exact E1.
  - exact E2.
  - intros H; apply capitalised_feedback in H; discriminate H.
  - intros H; apply capitalised_feedback in H; discriminate H.
Qed.

Ltac find_in := repeat first [ left; reflexivity | right ].

Lemma weak_resume_says_missing_email :
  In missing_email
     (dimension_feedback (@score_resume basic_latin weak_resume [])).
Proof. vm_compute; find_in. Defined.

Lemma feedback_in_exactly_one_list_witness :
  In missing_email
     (dimension_feedback (@score_resume basic_latin weak_resume []))
  /\ let i := report_issues (@score_resume basic_latin weak_resume []) in
     (In missing_email (critical_issues i)
      /\ ~ In missing_email (warnings i)
      /\ ~ In missing_email (improvements i))
     \/ (~ In missing_email (critical_issues i)
         /\ In missing_email (warnings i)
         /\ ~ In missing_email (improvements i))
     \/ (~ In missing_email (critical_issues i)
         /\ ~ In missing_email (warnings i)
         /\ In missing_email (improvements i)).
Proof.
  split; [exact weak_resume_says_missing_email|].
  exact (@feedback_in_exactly_one_list basic_latin weak_resume []
           missing_email weak_resume_says_missing_email).
Defined.

Lemma feedback_classification_witness :
  In missing_email
     (dimension_feedback (@score_resume basic_latin weak_resume []))
  /\ let i := report_issues (@score_resume basic_latin weak_resume []) in
     (In missing_email (critical_issues i)
      <-> @mentions basic_latin critical_words missing_email)
     /\ (In missing_email (improvements i)
         <-> ~ @mentions basic_latin critical_words missing_email
             /\ @mentions basic_latin improvement_words missing_email)
     /\ (In missing_email (warnings i)
         <-> ~ @mentions basic_latin critical_words missing_email
             /\ ~ @mentions basic_latin improvement_words missing_email).
Proof.
  split; [exact weak_resume_says_missing_email|].
  exact (@feedback_classification basic_latin weak_resume []
           missing_email weak_resume_says_missing_email).
Defined.

(* ================================================================= *)
(** ** Scores *)

Lemma Qltb_lt (a b : Q) : Qltb a b = true <-> (a < b)%Q.
Proof.
  unfold Qltb; rewrite negb_true_iff, <- not_true_iff_false, Qle_bool_iff.
  split; [apply Qnot_le_lt | apply Qlt_not_le].
Qed.

Lemma Qltb_ge (a b : Q) : Qltb a b = false <-> (b <= a)%Q.
Proof.
  unfold Qltb; rewrite negb_false_iff; apply Qle_bool_iff.
Qed.

(** [max(0, q)] is the larger of 0 and [q]. *)
Lemma max0_Qmax (q : Q) : (max0 q == Qmax 0 q)%Q.
Proof.
  unfold max0; destruct (Qltb 0 q) eqn:E.
  - apply Qltb_lt in E; symmetry; apply Q.max_r, Qlt_le_weak, E.
  - apply Qltb_ge in E; symmetry; apply Q.max_l, E.
Qed.

Lemma penalize_missing_tier (match_rate score : Q) :
  exists penalty,
    penalty_tier match_rate penalty
    /\ (penalize_missing match_rate score == score - penalty)%Q.
Proof.
  unfold penalize_missing, penalty_tier.
  destruct (Qltb match_rate 0.3) eqn:E3;
    [apply Qltb_lt in E3; exists 30%Q; split; [auto | reflexivity]
    | apply Qltb_ge in E3].
  destruct (Qltb match_rate 0.5) eqn:E5;
    [apply Qltb_lt in E5; exists 15%Q; split; [auto 6 | reflexivity]
    | apply Qltb_ge in E5].
  destruct (Qltb match_rate 0.7) eqn:E7;
    [apply Qltb_lt in E7; exists 5%Q; split; [auto 8 | reflexivity]
    | apply Qltb_ge in E7].
  exists 0%Q; split; [auto 8 | ring].
Qed.

(** The tiers exclude one another: a ratio has one penalty. *)
Lemma penalty_tier_unique (ratio p p' : Q) :
  penalty_tier ratio p -> penalty_tier ratio p' -> p = p'.
Proof.
  unfold penalty_tier; intros H H'.
  destruct H as [(A & ->) | [(A & B & ->) | [(A & B & ->) | (A & ->)]]];
    destruct H' as [(A' & ->) | [(A' & B' & ->) | [(A' & B' & ->) | (A' & ->)]]];
    try reflexivity; exfalso; lra.
Qed.

Section KeywordsMode.
Context {U : Unicode}.

(** C2. With a non-empty job description the keywords score is
    matched / max(number of job-description keywords, 1) * 100 minus exactly
    one penalty: 30 when the ratio is below 0.3, otherwise 15 below 0.5,
    otherwise 5 below 0.7, otherwise nothing; floored at 0. *)
Theorem keywords_score_with_job_description
  (resume_text job_description : str) :
  job_description <> [] ->
  let jd_keywords := _extract_keywords (lower job_description) in
  let resume_keywords := _extract_keywords (lower resume_text) in
  let matched :=
    filter (fun keyword => mem keyword resume_keywords) jd_keywords in
  let ratio :=
    (Qnat (length matched) / Qnat (Nat.max (length jd_keywords) 1))%Q in
  exists! penalty,
    penalty_tier ratio penalty
    /\ (fst (_score_keywords resume_text job_description)
        == Qmax 0 (ratio * 100 - penalty))%Q.
Proof.
  intros Hjd; cbv zeta.
  unfold _score_keywords.
  destruct job_description as [|c jd]; [congruence|].
  cbn [nonempty fst].
  match goal with
  | |- context [penalize_missing ?r ?s] =>
      destruct (penalize_missing_tier r s) as (p & Ht & Hp)
  end.
  exists p; split.
  - split; [exact Ht|].
    now rewrite max0_Qmax, Hp.
  - intros p' (Ht' & _); exact (penalty_tier_unique Ht Ht').
Qed.

End KeywordsMode.

Section ContentScore.
Context {U : Unicode}.

Lemma has_any_app (names : list str) (text more : str) :
  has_any names text = true -> has_any names (text ++ more) = true.
Proof.
  unfold has_any; rewrite !existsb_exists, lower_app.
  intros (n & Hn & H); exists n; split; [exact Hn|].
  now apply contains_app_l.
Qed.

(** The score [_score_content] returns, from the five tests it makes. *)
Lemma _score_content_value (text : str) :
  (fst (_score_content text)
   == content_score_of
        (has_any [ lit "experience"; lit "employment" ] text)
        (has_any [ lit "education"; lit "degree" ] text)
        (has_any [ lit "skills"; lit "technical" ] text)
        (has_any [ lit "summary"; lit "objective"; lit "profile" ] text)
        (contains [AT] text))%Q.
Proof.
  unfold _score_content, has_any; cbv zeta; cbn [existsb].
  rewrite !orb_false_r, orb_assoc.
  generalize (contains (lit "experience") (lower text)
              || contains (lit "employment") (lower text)).
  generalize (contains (lit "education") (lower text)
              || contains (lit "degree") (lower text)).
  generalize (contains (lit "skills") (lower text)
              || contains (lit "technical") (lower text)).
  generalize (contains (lit "summary") (lower text)
              || contains (lit "objective") (lower text)
              || contains (lit "profile") (lower text)).
  generalize (contains [AT] text).
  generalize (search phone_at text).
  intros [|] [|] [|] [|] [|] [|]; vm_compute; reflexivity.
Qed.

Lemma content_score_of_mono (a b c d a' b' c' d' : bool) :
  (a = true -> a' = true) -> (b = true -> b' = true) ->
  (c = true -> c' = true) -> (d = true -> d' = true) ->
  (content_score_of a b c d false <= content_score_of a' b' c' d' true)%Q.
Proof.
  intros Ha Hb Hc Hd.
  destruct a; [rewrite (Ha eq_refl) | clear Ha];
  destruct b; [rewrite (Hb eq_refl) | clear Hb | rewrite (Hb eq_refl) | clear Hb];
  destruct c; try rewrite (Hc eq_refl); clear Hc;
  destruct d; try rewrite (Hd eq_refl); clear Hd;
  repeat match goal with x : bool |- _ => destruct x end;
  vm_compute; discriminate.
Qed.

(** C8. Appending an e-mail address (a string with an at sign) to a text
    without one never lowers the content score. *)
Theorem email_never_lowers_content_score (text email : str) :
  ~ In AT text -> In AT email ->
  (fst (_score_content text) <= fst (_score_content (text ++ email)))%Q.
Proof.
  intros Hno Hat.
  rewrite (_score_content_value text), (_score_content_value (text ++ email)).
  assert (E : contains [AT] text = false).
  { apply not_true_is_false; now rewrite contains_char. }
  assert (E' : contains [AT] (text ++ email) = true).
  { apply contains_char, in_or_app; now right. }
  rewrite E, E'.
  apply content_score_of_mono; apply has_any_app.
Qed.

End ContentScore.

Lemma email_never_lowers_content_score_witness :
  (fst (@_score_content basic_latin weak_resume)
   <= fst (@_score_content basic_latin
             (weak_resume ++ lit " john@example.com")))%Q.
Proof.
  apply (@email_never_lowers_content_score basic_latin weak_resume
           (lit " john@example.com")).
  - vm_compute; intuition discriminate.
  - vm_compute; find_in.
Defined.

(** C1. The claim that every dimension score and the overall score lie in
    [0, 100] fails on the code: for [polished_resume] the content scorer
    returns 100 + 5 = 105, the other four return 100, and the overall score
    is 101. *)
Theorem content_bonus_exceeds_100 :
  let r := @score_resume basic_latin polished_resume [] in
  (d_score (content (breakdown r)) == 105)%Q
  /\ (overall_score r == 101)%Q.
Proof. vm_compute; split; reflexivity. Qed.

(** With all three sections, a summary and an at sign the content score is
    105, whatever else the text holds. *)
Lemma content_score_of_complete :
  (content_score_of true true true true true == 105)%Q.
Proof. reflexivity. Qed.

(* ================================================================= *)
(** ** score-file.js *)

(** A check adds its points or pushes its message. *)
Lemma credit_credited (lo hi pts : Z) (b : bool) (msg : str)
  (r : ScoreFile.result) :
  (0 <= pts)%Z -> credited lo hi r ->
  credited lo (hi + pts) (ScoreFile.credit b pts msg r).
Proof.
  intros Hp ((Hlo & Hhi) & Hfull); unfold credited, ScoreFile.credit.
  destruct b; simpl.
  - split; [lia|]. intros E; rewrite (Hfull E); reflexivity.
  - split; [lia|]. intros E; apply app_eq_nil in E; destruct E; discriminate.
Qed.

(** [scoreFromText] is its six checks followed by the cap and the default
    message. *)
Lemma scoreFromText_checks {U : Unicode} (text : str) :
  exists r,
    credited 50 101 r
    /\ ScoreFile.scoreFromText text
       = {| ScoreFile.score := Z.min (ScoreFile.score r) 100;
            ScoreFile.feedback :=
              if (length (ScoreFile.feedback r) =? 0)%nat then
                ScoreFile.feedback r
                ++ [ lit "Resume looks solid. Customize it for the target role and keywords." ]
              else ScoreFile.feedback r |}.
Proof.
  eexists; split; [|unfold ScoreFile.scoreFromText; reflexivity].
  change 101%Z with (50 + 10 + 8 + 12 + 6 + 10 + 5)%Z.
  repeat (apply credit_credited; [lia|]).
  split; simpl; [lia | reflexivity].
Qed.

(** C10. For every text, the empty one included, [scoreFromText] returns a
    score between 50 and 100 and a feedback list that is not empty. *)
Theorem scoreFromText_range {U : Unicode} (text : str) :
  (50 <= ScoreFile.score (ScoreFile.scoreFromText text) <= 100)%Z
  /\ ScoreFile.feedback (ScoreFile.scoreFromText text) <> [].
Proof.
  destruct (scoreFromText_checks text) as (r & ((Hlo & Hhi) & _) & ->).
  cbn [ScoreFile.score ScoreFile.feedback]; split; [lia|].
  destruct (ScoreFile.feedback r) as [|m rest]; simpl; discriminate.
Qed.

(** Comparisons of two literals are evaluated. *)
Ltac compare_literals :=
  repeat match goal with
  | |- context [str_eqb (lit ?a) (lit ?b)] =>
      let v := eval vm_compute in (str_eqb (lit a) (lit b)) in
      change (str_eqb (lit a) (lit b)) with v
  end.

Section Upload.
Context {U : Unicode}.
Variable toString_utf8 : bytes -> str.
Variable from_base64 : str -> bytes.
Variable pdfParse : bytes -> outcome jsval.
Variable extractRawText : bytes -> outcome jsval.

(** A failed extraction, whatever the error, is answered with status 400
    and one fixed message. *)
Lemma handler_extraction_error (filename contentBase64 message : str) :
  filename <> [] -> contentBase64 <> [] ->
  ScoreFile.extractTextFromUpload toString_utf8 pdfParse
    extractRawText filename (from_base64 contentBase64) = Thrown message ->
  ScoreFile.handler toString_utf8 from_base64 pdfParse extractRawText
    (post filename contentBase64)
  = ScoreFile.jsonResponse 400 (ScoreFile.ErrorBody (lit "Unable to read file.")).
Proof.
  intros Hf Hc He; unfold post, ScoreFile.handler; simpl.
  destruct filename; [congruence|]; destruct contentBase64; [congruence|].
  simpl; now rewrite He.
Qed.

(** An extraction that returns is scored, the empty text included. *)
Lemma handler_extracted (filename contentBase64 text : str) :
  filename <> [] -> contentBase64 <> [] ->
  ScoreFile.extractTextFromUpload toString_utf8 pdfParse
    extractRawText filename (from_base64 contentBase64) = Returned text ->
  ScoreFile.handler toString_utf8 from_base64 pdfParse extractRawText
    (post filename contentBase64)
  = ScoreFile.jsonResponse 200
      (ScoreFile.ScoreBody (ScoreFile.scoreFromText text)).
Proof.
  intros Hf Hc He; unfold post, ScoreFile.handler; simpl.
  destruct filename; [congruence|]; destruct contentBase64; [congruence|].
  simpl; now rewrite He.
Qed.

(** C6, as the code has it.  A file whose extension is not txt, md, pdf or
    docx is rejected with the fixed message [Unsupported file type.], which
    does not name the extension.  To a POST of such a file name with any
    base64 content the handler answers with status 400: with
    [Missing filename or file content.] when the name or the content is
    empty, and otherwise with [Unable to read file.], which is its answer
    to every upload whose extraction fails, whatever the error. *)
Theorem unsupported_extension_rejected (filename : str) (content : bytes) :
  ~ In (ScoreFile.extension_of filename) supported_extensions ->
  ScoreFile.extractTextFromUpload toString_utf8 pdfParse
    extractRawText filename content = Thrown (lit "Unsupported file type.")
  /\ (forall contentBase64,
        ScoreFile.handler toString_utf8 from_base64 pdfParse extractRawText
          (post filename contentBase64)
        = ScoreFile.jsonResponse 400
            (ScoreFile.ErrorBody
               (if nonempty filename && nonempty contentBase64
                then lit "Unable to read file."
                else lit "Missing filename or file content.")))
  /\ (forall other contentBase64 message,
        other <> [] -> contentBase64 <> [] ->
        ScoreFile.extractTextFromUpload toString_utf8 pdfParse
          extractRawText other (from_base64 contentBase64) = Thrown message ->
        ScoreFile.handler toString_utf8 from_base64 pdfParse extractRawText
          (post other contentBase64)
        = ScoreFile.jsonResponse 400
            (ScoreFile.ErrorBody (lit "Unable to read file."))).
Proof.
  intros Hext.
  assert (E : forall c, ScoreFile.extractTextFromUpload toString_utf8 pdfParse
    extractRawText filename c = Thrown (lit "Unsupported file type.")).
  { intros c; unfold ScoreFile.extractTextFromUpload; cbv zeta.
    assert (S : forall known, In known supported_extensions ->
                  str_eqb (ScoreFile.extension_of filename) known = false).
    { intros known Hk; apply not_true_is_false; intros Heq.
      apply str_eqb_eq in Heq; apply Hext; now rewrite Heq. }
    unfold supported_extensions in S.
    rewrite !S by auto using in_eq, in_cons.
    reflexivity. }
  split; [apply E|]; split.
  - intros b64.
    destruct filename as [|c0 name]; [reflexivity|].
    destruct b64 as [|c1 b64]; [reflexivity|].
    cbn [nonempty andb].
    apply handler_extraction_error with (3 := E _); discriminate.
  - intros other b64 message Hf Hc He.
    apply handler_extraction_error with (1 := Hf) (2 := Hc) (3 := He).
Qed.

(** C7, as the code has it.  For a pdf or docx file, when the extraction
    library rejects the payload the extraction fails with the library's
    error; when the parse yields no text (none at all, or the empty string)
    the extraction succeeds with the empty string. *)
Theorem extraction_rejects_or_returns_empty (filename : str) (content : bytes) :
  (ScoreFile.extension_of filename = lit "pdf" ->
   (forall e, pdfParse content = Thrown e ->
              ScoreFile.extractTextFromUpload toString_utf8 pdfParse
    extractRawText filename content = Thrown e)
   /\ (forall v, pdfParse content = Returned v -> falsy v = true ->
                 ScoreFile.extractTextFromUpload toString_utf8 pdfParse
    extractRawText filename content = Returned []))
  /\ (ScoreFile.extension_of filename = lit "docx" ->
      (forall e, extractRawText content = Thrown e ->
                 ScoreFile.extractTextFromUpload toString_utf8 pdfParse
    extractRawText filename content = Thrown e)
      /\ (forall v, extractRawText content = Returned v -> falsy v = true ->
                    ScoreFile.extractTextFromUpload toString_utf8 pdfParse
    extractRawText filename content = Returned [])).
Proof.
  unfold ScoreFile.extractTextFromUpload; cbv zeta.
  split; intros ->; compare_literals; cbn [orb]; split.
  - intros e ->. reflexivity.
  - intros v -> Hv. destruct v as [|[|]]; [reflexivity | reflexivity | discriminate].
  - intros e ->. reflexivity.
  - intros v -> Hv. destruct v as [|[|]]; [reflexivity | reflexivity | discriminate].
Qed.

End Upload.

(** The sample payload decodes to the PDF header. *)
Lemma pdf_header_decoded : decode_base64 pdf_header_base64 = pdf_header.
Proof. reflexivity. Qed.

Lemma xyz_is_unsupported :
  ~ In (@ScoreFile.extension_of basic_latin (lit "resume.xyz"))
       supported_extensions.
Proof. vm_compute; intuition discriminate. Defined.

Lemma unsupported_extension_rejected_witness :
  @ScoreFile.extractTextFromUpload basic_latin decode_7bit finds_no_text
    finds_no_text (lit "resume.xyz") pdf_header
  = Thrown (lit "Unsupported file type.")
  /\ (forall contentBase64,
        @ScoreFile.handler basic_latin decode_7bit decode_base64
          finds_no_text finds_no_text
          (post (lit "resume.xyz") contentBase64)
        = ScoreFile.jsonResponse 400
            (ScoreFile.ErrorBody
               (if nonempty (lit "resume.xyz") && nonempty contentBase64
                then lit "Unable to read file."
                else lit "Missing filename or file content.")))
  /\ (forall other contentBase64 message,
        other <> [] -> contentBase64 <> [] ->
        @ScoreFile.extractTextFromUpload basic_latin decode_7bit
          finds_no_text finds_no_text other (decode_base64 contentBase64)
        = Thrown message ->
        @ScoreFile.handler basic_latin decode_7bit decode_base64
          finds_no_text finds_no_text (post other contentBase64)
        = ScoreFile.jsonResponse 400
            (ScoreFile.ErrorBody (lit "Unable to read file."))).
Proof.
  exact (@unsupported_extension_rejected basic_latin decode_7bit
           decode_base64 finds_no_text finds_no_text (lit "resume.xyz")
           pdf_header xyz_is_unsupported).
Defined.

(** C6 fails as stated: the error for [resume.xyz] is the fixed message,
    in which [xyz] does not occur, and the handler's answer is the one it
    gives for a pdf file that the library rejects. *)
Lemma unsupported_message_omits_extension :
  @ScoreFile.extension_of basic_latin (lit "resume.xyz") = lit "xyz"
  /\ @ScoreFile.extractTextFromUpload basic_latin decode_7bit rejects
       rejects (lit "resume.xyz") pdf_header
     = Thrown (lit "Unsupported file type.")
  /\ contains (lit "xyz") (lit "Unsupported file type.") = false
  /\ @ScoreFile.handler basic_latin decode_7bit decode_base64 rejects rejects
       (post (lit "resume.xyz") pdf_header_base64)
     = @ScoreFile.handler basic_latin decode_7bit decode_base64 rejects
         rejects
         (post (lit "resume.pdf") pdf_header_base64).
Proof. repeat split. Qed.

(** C7 fails as stated: a pdf whose parse finds no text is extracted as the
    empty string, and the handler scores it with status 200. *)
Lemma empty_text_returned_as_success :
  @ScoreFile.extractTextFromUpload basic_latin decode_7bit finds_no_text
    finds_no_text (lit "scan.pdf") pdf_header
  = Returned []
  /\ ScoreFile.statusCode
       (@ScoreFile.handler basic_latin decode_7bit decode_base64
          finds_no_text finds_no_text
          (post (lit "scan.pdf") pdf_header_base64))
     = 200%Z.
Proof. split; reflexivity. Qed.

(** A pdf that the library rejects fails with the library's error; a docx
    in which the library finds no text is extracted as the empty string. *)
Lemma extraction_rejects_or_returns_empty_witness :
  @ScoreFile.extractTextFromUpload basic_latin decode_7bit rejects
    finds_no_text (lit "resume.pdf") pdf_header
  = Thrown (lit "Invalid PDF structure")
  /\ @ScoreFile.extractTextFromUpload basic_latin decode_7bit rejects
       finds_no_text (lit "notes.docx") pdf_header
     = Returned [].
Proof.
  split.
  - exact (proj1
             (proj1 (@extraction_rejects_or_returns_empty basic_latin
                       decode_7bit rejects finds_no_text (lit "resume.pdf")
                       pdf_header)
                    eq_refl)
             (lit "Invalid PDF structure") eq_refl).
  - exact (proj2
             (proj2 (@extraction_rejects_or_returns_empty basic_latin
                       decode_7bit rejects finds_no_text (lit "notes.docx")
                       pdf_header)
                    eq_refl)
             undefined eq_refl eq_refl).
Defined.

(* ================================================================= *)
(** ** Sample runs of the keywords scorer and of the rounding *)

Lemma keywords_score_with_job_description_witness :
  let jd_keywords :=
    @_extract_keywords basic_latin
      (@lower basic_latin sample_job_description) in
  let resume_keywords :=
    @_extract_keywords basic_latin (@lower basic_latin sample_resume_line) in
  let matched :=
    filter (fun keyword => mem keyword resume_keywords) jd_keywords in
  let ratio :=
    (Qnat (length matched) / Qnat (Nat.max (length jd_keywords) 1))%Q in
  exists! penalty,
    penalty_tier ratio penalty
    /\ (fst (@_score_keywords basic_latin sample_resume_line
               sample_job_description)
        == Qmax 0 (ratio * 100 - penalty))%Q.
Proof.
  apply (@keywords_score_with_job_description basic_latin sample_resume_line
           sample_job_description).
  discriminate.
Defined.

(** Four of the seven keywords of the job description are matched: the
    ratio 4/7 is in the third tier and the score is 400/7 - 5. *)
Lemma sample_keywords_score :
  (fst (@_score_keywords basic_latin sample_resume_line
          sample_job_description)
   == 365 # 7)%Q.
Proof. vm_compute; reflexivity. Qed.

(** [round1 q] is a whole number of tenths, at most half a tenth away from
    [q]. *)
Lemma round1_close (q : Q) :
  (exists n, round1 q = (inject_Z n / 10)%Q)
  /\ (round1 q - q <= 1 # 20)%Q /\ (q - round1 q <= 1 # 20)%Q.
Proof.
  unfold round1, round_half_even.
  split; [eexists; reflexivity|].
  pose proof (Qfloor_le (q * 10)) as Hlo.
  pose proof (Qlt_floor (q * 10)) as Hhi.
  rewrite inject_Z_plus in Hhi.
  change (inject_Z 1) with 1%Q in Hhi.
  set (f := Qfloor (q * 10)) in *; clearbody f.
  unfold Qdiv; change (/ 10)%Q with (1 # 10)%Q.
  destruct (Qcompare (q * 10 - inject_Z f) 0.5) eqn:C.
  - apply Qeq_alt in C.
    destruct (Z.even f); [|rewrite inject_Z_plus; change (inject_Z 1) with 1%Q];
      split; lra.
  - apply Qlt_alt in C; split; lra.
  - apply Qgt_alt in C; rewrite inject_Z_plus; change (inject_Z 1) with 1%Q;
      split; lra.
Qed.

(* ================================================================= *)
(** ** The rounding of the overall score *)



(** On doubles too the result of [round] is a whole number of tenths at
    most 0.05 away from the exact value of the binary64 sum. *)
Lemma binary64_overall_nearest_tenth (f k i c s : float) :
  (exists n : Z, Binary64.overall f k i c s = (inject_Z n / 10)%Q)
  /\ (Binary64.overall f k i c s
      - Binary64.exact (Binary64.weighted_sum f k i c s) <= 0.05)%Q
  /\ (Binary64.exact (Binary64.weighted_sum f k i c s)
      - Binary64.overall f k i c s <= 0.05)%Q.
Proof.
  unfold Binary64.overall, Binary64.round_1.
  destruct (round1_close (Binary64.exact (Binary64.weighted_sum f k i c s)))
    as (Hn & Hup & Hdown).
  split; [exact Hn|]; split; lra.
Qed.

(* ================================================================= *)
(** ** checker.py *)

(** Every exception of the upload endpoint leaves it as status 500 with the
    detail [Failed to parse resume]: the 400 it raises for an unsupported
    file name is caught by its own handler. *)
Lemma upload_resume_failure
  (parse_pdf parse_docx decode_utf8 : bytes -> Checker.raising str)
  (filename : str) (content : bytes) (e : Checker.exn) :
  Checker.parse_upload parse_pdf parse_docx decode_utf8 filename content
  = Checker.Raise e ->
  Checker.upload_resume parse_pdf parse_docx decode_utf8 filename content
  = Checker.Raise
      (Checker.HTTPException 500 (lit "Failed to parse resume")).
Proof. unfold Checker.upload_resume; now intros ->. Qed.

Lemma upload_resume_unsupported
  (parse_pdf parse_docx decode_utf8 : bytes -> Checker.raising str)
  (filename : str) (content : bytes) :
  Checker.endswith (lit ".pdf") filename = false ->
  Checker.endswith (lit ".docx") filename = false ->
  Checker.endswith (lit ".txt") filename = false ->
  Checker.upload_resume parse_pdf parse_docx decode_utf8 filename content
  = Checker.Raise
      (Checker.HTTPException 500 (lit "Failed to parse resume")).
Proof.
  intros H1 H2 H3; apply upload_resume_failure
    with (e := Checker.HTTPException 400 (lit "Unsupported file format")).
  unfold Checker.parse_upload; now rewrite H1, H2, H3.
Qed.

(* ================================================================= *)
(** ** The critical test runs first *)

(** A feedback string that mentions both a critical and an improvement word
    is listed as critical and not as an improvement. *)
Lemma critical_word_wins {U : Unicode} (text jd item : str) :
  In item (dimension_feedback (score_resume text jd)) ->
  mentions critical_words item -> mentions improvement_words item ->
  In item (critical_issues (report_issues (score_resume text jd)))
  /\ ~ In item (improvements (report_issues (score_resume text jd))).
Proof.
  intros H Hc Hi; apply feedback_is_iterated in H.
  destruct (report_lists text jd item) as (Ec & Ei & _).
  cbv zeta in *; rewrite Ec, Ei.
  apply existsb_mentions in Hc; fold (is_critical item) in Hc.
  rewrite Hc; intuition congruence.
Qed.

(* ================================================================= *)
(** * Further properties of the code *)

(** ** Bounds of the running score *)

Section ScoreBounds.

Lemma below_say (hi : Q) (msg : str) : keeps_below hi (say msg).
Proof. intros t H; exact H. Qed.

Lemma below_sub (hi d : Q) : (0 <= d)%Q -> keeps_below hi (sub d).
Proof. intros Hd t H; simpl; lra. Qed.

Lemma below_set_score (hi v : Q) : (v <= hi)%Q -> keeps_below hi (set_score v).
Proof. intros Hv t H; exact Hv. Qed.

Lemma below_seq (hi : Q) (f g : tally -> tally) :
  keeps_below hi f -> keeps_below hi g -> keeps_below hi (f ;; g).
Proof. intros Hf Hg t H; apply Hg, Hf, H. Qed.

Lemma below_when (hi : Q) (b : bool) (f : tally -> tally) :
  keeps_below hi f -> keeps_below hi (when b f).
Proof. intros Hf t H; unfold when; destruct b; [apply Hf|]; exact H. Qed.

Lemma below_if_else (hi : Q) (b : bool) (f g : tally -> tally) :
  keeps_below hi f -> keeps_below hi g -> keeps_below hi (if_else b f g).
Proof.
  intros Hf Hg t H; unfold if_else; destruct b; [apply Hf | apply Hg]; exact H.
Qed.

Lemma max0_nonneg (q : Q) : (0 <= max0 q)%Q.
Proof.
  unfold max0; destruct (Qltb 0 q) eqn:E; [|lra].
  apply Qltb_lt in E; lra.
Qed.

Lemma max0_le (q hi : Q) : (0 <= hi)%Q -> (q <= hi)%Q -> (max0 q <= hi)%Q.
Proof. intros Hhi Hq; unfold max0; destruct (Qltb 0 q); assumption. Qed.

Lemma max0_ge (q : Q) : (q <= max0 q)%Q.
Proof.
  unfold max0; destruct (Qltb 0 q) eqn:E; [lra|].
  apply Qltb_ge in E; exact E.
Qed.

End ScoreBounds.

Ltac below_steps :=
  lazymatch goal with
  | |- keeps_below _ (_ ;; _) => apply below_seq; below_steps
  | |- keeps_below _ (when _ _) => apply below_when; below_steps
  | |- keeps_below _ (if_else _ _ _) => apply below_if_else; below_steps
  | |- keeps_below _ (sub _) => apply below_sub; lra
  | |- keeps_below _ (say _) => apply below_say
  | |- keeps_below _ (set_score _) => apply below_set_score
  end.

Ltac settle_cases :=
  vm_compute; repeat split; intros; try discriminate; try reflexivity.

(** ** The formatting and structure scorers *)

(** X1. The formatting score is between 57 and 100: the two length
    deductions exclude each other.  It is 100 exactly when the scorer gives
    no feedback. *)
Theorem _score_formatting_range (text : str) :
  (57 <= fst (_score_formatting text))%Q
  /\ (fst (_score_formatting text) <= 100)%Q
  /\ ((fst (_score_formatting text) == 100)%Q
      <-> snd (_score_formatting text) = []).
Proof.
  unfold _score_formatting; cbv zeta.
  generalize (filter (fun ch => contains ch text) ATS_BREAKING_CHARS).
  intros found.
  destruct (length (split_on NL text) <? 10)%nat eqn:E1;
    destruct (100 <? length (split_on NL text))%nat eqn:E2;
    [ exfalso; apply Nat.ltb_lt in E1; apply Nat.ltb_lt in E2; lia | | | ];
    generalize (negb (length found =? 0)%nat);
    generalize (contains (lit "|") text || contains [BOX_LINE] text);
    generalize (contains [ZWSP] text || contains [BOM] text);
    generalize (contains (lit "  ") text);
    intros [|] [|] [|] [|]; settle_cases.
Qed.

Section StructureScore.
Context {U : Unicode}.

(** X2. The structure score is between 45 and 100, and it is 100 exactly
    when the scorer gives no feedback. *)
Theorem _score_structure_range (text : str) :
  (45 <= fst (_score_structure text))%Q
  /\ (fst (_score_structure text) <= 100)%Q
  /\ ((fst (_score_structure text) == 100)%Q
      <-> snd (_score_structure text) = []).
Proof.
  unfold _score_structure; cbv zeta.
  generalize (length (split_ws text)); intros word_count.
  generalize (length
                (filter (fun line => isupper line && (length line <? 30)%nat)
                   (split_on NL text)) <? 3)%nat.
  generalize (Qltb (Qnat (length (split_on NL text)) * 0.3)
                (Qnat (length
                         (filter (fun line => (100 <? length line)%nat)
                            (split_on NL text))))).
  generalize ((count [BULLET] text + count (lit "-") text
               + count (lit "*") text =? 0)%nat).
  generalize (word_count <? 200)%nat.
  generalize (1500 <? word_count)%nat.
  intros [|] [|] [|] [|] [|]; settle_cases.
Qed.

End StructureScore.

(** ** The keywords scorer *)

Lemma Qnat_le (m n : nat) : (m <= n)%nat -> (Qnat m <= Qnat n)%Q.
Proof. intros H; unfold Qnat; rewrite <- Zle_Qle; lia. Qed.

Lemma Qnat_pos (n : nat) : (0 < n)%nat -> (0 < Qnat n)%Q.
Proof.
  intros H; unfold Qnat; change 0%Q with (inject_Z 0).
  rewrite <- Zlt_Qlt; lia.
Qed.

(** A ratio of a part to the whole, the whole taken as at least one. *)
Lemma ratio_bounds (m n : nat) :
  (m <= n)%nat ->
  (0 <= Qnat m / Qnat (Nat.max n 1))%Q
  /\ (Qnat m / Qnat (Nat.max n 1) <= 1)%Q.
Proof.
  intros H.
  assert (Hpos : (0 < Qnat (Nat.max n 1))%Q) by (apply Qnat_pos; lia).
  split.
  - apply Qle_shift_div_l; [exact Hpos|].
    assert (Hm : (Qnat 0 <= Qnat m)%Q) by (apply Qnat_le; lia).
    change (Qnat 0) with 0%Q in Hm; lra.
  - apply Qle_shift_div_r; [exact Hpos|].
    assert (Hm : (Qnat m <= Qnat (Nat.max n 1))%Q) by (apply Qnat_le; lia).
    lra.
Qed.

Lemma filter_length_le {A} (f : A -> bool) (l : list A) :
  (length (filter f l) <= length l)%nat.
Proof.
  induction l as [|x l IH]; simpl; [lia|].
  destruct (f x); simpl; lia.
Qed.

Lemma filter_all {A} (f : A -> bool) (l : list A) :
  (forall x, In x l -> f x = true) -> filter f l = l.
Proof.
  induction l as [|x l IH]; simpl; intros H; [reflexivity|].
  rewrite (H x (or_introl eq_refl)), IH; [reflexivity|].
  intros y Hy; apply H; now right.
Qed.

Lemma penalty_tier_nonneg (ratio p : Q) : penalty_tier ratio p -> (0 <= p)%Q.
Proof.
  intros [(_ & ->) | [(_ & _ & ->) | [(_ & _ & ->) | (_ & ->)]]]; lra.
Qed.

(** [list(set(xs))] has the elements of [xs], each once. *)
Lemma distinct_In (x : str) (xs : list str) : In x (distinct xs) <-> In x xs.
Proof.
  induction xs as [|y ys IH]; simpl; [tauto|].
  rewrite filter_In, IH, negb_true_iff.
  destruct (str_eqb y x) eqn:E.
  - apply str_eqb_eq in E; subst; intuition.
  - assert (y <> x) by (intros ->; rewrite (proj2 (str_eqb_eq x x) eq_refl) in E;
                        discriminate).
    intuition.
Qed.

Lemma distinct_NoDup (xs : list str) : NoDup (distinct xs).
Proof.
  induction xs as [|y ys IH]; simpl; constructor.
  - rewrite filter_In, negb_true_iff.
    intros (_ & E); rewrite (proj2 (str_eqb_eq y y) eq_refl) in E; discriminate.
  - now apply NoDup_filter.
Qed.

Section KeywordsFacts.
Context {U : Unicode}.

(** Whatever the resume and the job description, the keywords score is
    between 0 and 100. *)
Lemma _score_keywords_range (resume_text job_description : str) :
  (0 <= fst (_score_keywords resume_text job_description))%Q
  /\ (fst (_score_keywords resume_text job_description) <= 100)%Q.
Proof.
  unfold _score_keywords; cbv zeta.
  destruct (nonempty job_description); cbn [fst].
  - split; [apply max0_nonneg|].
    apply max0_le; [lra|].
    match goal with
    | |- context [penalize_missing ?r ?s] =>
        destruct (penalize_missing_tier r s) as (p & Ht & ->);
        pose proof (penalty_tier_nonneg Ht)
    end.
    match goal with
    | |- context [(Qnat (length (filter ?f ?l)) / _)%Q] =>
        destruct (ratio_bounds (filter_length_le f l)) as (_ & Hr)
    end.
    lra.
  - generalize (length
                  (filter (fun keyword => contains keyword (lower resume_text))
                     TECHNICAL_KEYWORDS)).
    intros [|[|[|n]]]; settle_cases.
Qed.

(** X4. Without a job description the score is 70 when no word of the
    technical vocabulary occurs in the lower-cased resume, 85 for one or
    two, 100 from three on; the missing list is empty and the matched list
    holds exactly the vocabulary words that occur, each once. *)
Theorem keywords_without_job_description (resume_text : str) :
  let r := _score_keywords resume_text [] in
  let found := filter (fun keyword => contains keyword (lower resume_text))
                 TECHNICAL_KEYWORDS in
  (fst r == if (length found =? 0)%nat then 70
            else if (length found <? 3)%nat then 85 else 100)%Q
  /\ dict_get (lit "missing") (snd r) [] = []
  /\ NoDup (dict_get (lit "matched") (snd r) [])
  /\ forall keyword,
       In keyword (dict_get (lit "matched") (snd r) [])
       <-> In keyword TECHNICAL_KEYWORDS
           /\ occurs_in keyword (lower resume_text).
Proof.
  unfold _score_keywords; cbv zeta; cbn [nonempty fst snd].
  change (dict_get (lit "missing") _ []) with (distinct []).
  match goal with
  | |- context [dict_get (lit "matched") [(_, ?m); _] []] =>
      change (dict_get (lit "matched") [(lit "matched", m); (lit "missing", distinct [])] [])
        with m
  end.
  repeat split.
  - destruct (length _ =? 0)%nat; [reflexivity|].
    destruct (length _ <? 3)%nat; reflexivity.
  - apply distinct_NoDup.
  - rewrite distinct_In, filter_In in H; tauto.
  - rewrite distinct_In, filter_In, contains_occurs in H; tauto.
  - intros (Hk & Ho); rewrite distinct_In, filter_In, contains_occurs; tauto.
Qed.

End KeywordsFacts.

Lemma split_by_pieces (sep : N -> bool) (s piece : str) :
  In piece (split_by sep s) -> forall c, In c piece -> sep c = false.
Proof.
  revert piece; induction s as [|x s IH]; simpl; intros piece H c Hc.
  - destruct H as [<-|[]]; destruct Hc.
  - destruct (sep x) eqn:E.
    + destruct H as [<-|H]; [destruct Hc | exact (IH piece H c Hc)].
    + destruct (split_by sep s) as [|l ls]; simpl in H.
      * destruct H as [<-|[]]; destruct Hc as [<-|[]]; exact E.
      * destruct H as [<-|H].
        -- destruct Hc as [<-|Hc]; [exact E | apply (IH l); simpl; auto].
        -- apply (IH piece); simpl; auto.
Qed.

Section ExtractKeywords.
Context {U : Unicode}.

(** X5. A keyword is a whitespace-free word of more than three characters
    of the text.  The stop-word test never removes a word: every stop word
    has at most three characters. *)
Theorem _extract_keywords_words (text : str) :
  _extract_keywords text
  = filter (fun w => (3 <? length w)%nat) (split_ws text)
  /\ forall keyword,
       In keyword (_extract_keywords text) ->
       (4 <= length keyword)%nat
       /\ forall c, In c keyword -> cp_isspace c = false.
Proof.
  assert (E : _extract_keywords text
              = filter (fun w => (3 <? length w)%nat) (split_ws text)).
  { unfold _extract_keywords; apply filter_ext; intros w.
    destruct (3 <? length w)%nat eqn:L; [|reflexivity].
    apply Nat.ltb_lt in L.
    destruct (mem w stopwords) eqn:M; [|reflexivity].
    apply mem_In in M; exfalso.
    unfold stopwords in M; cbn [In] in M.
    repeat (destruct M as [<-|M]; [vm_compute in L; lia|]); exact M. }
  split; [exact E|].
  intros keyword H; rewrite E in H; apply filter_In in H.
  destruct H as (H & L); apply Nat.ltb_lt in L; split; [lia|].
  unfold split_ws in H; apply filter_In in H; destruct H as (H & _).
  exact (split_by_pieces _ _ _ H).
Qed.

(** X6. With a job description, the matched list holds exactly the keywords
    of the description that are keywords of the resume, the missing list
    exactly the others, each once: a keyword of the description is in one
    of the two lists and never in both. *)
Theorem keywords_matched_or_missing (resume_text job_description keyword : str) :
  job_description <> [] ->
  let data := snd (_score_keywords resume_text job_description) in
  let jd_keywords := _extract_keywords (lower job_description) in
  let resume_keywords := _extract_keywords (lower resume_text) in
  (In keyword (dict_get (lit "matched") data [])
   <-> In keyword jd_keywords /\ In keyword resume_keywords)
  /\ (In keyword (dict_get (lit "missing") data [])
      <-> In keyword jd_keywords /\ ~ In keyword resume_keywords)
  /\ NoDup (dict_get (lit "matched") data [])
  /\ NoDup (dict_get (lit "missing") data []).
Proof.
  intros Hjd; unfold _score_keywords; cbv zeta.
  destruct job_description as [|c jd]; [congruence|].
  cbn [nonempty snd].
  match goal with
  | |- context [dict_get (lit "matched") [(_, ?m); (_, ?x)] []] =>
      change (dict_get (lit "matched") [(lit "matched", m); (lit "missing", x)] [])
        with m;
      change (dict_get (lit "missing") [(lit "matched", m); (lit "missing", x)] [])
        with x
  end.
  rewrite !distinct_In, !filter_In, negb_true_iff, <- not_true_iff_false,
    mem_In.
  repeat split; try tauto; apply distinct_NoDup.
Qed.

(** X7. With a job description: when the description has no keyword the
    score is 0, whatever the resume; when it has one and every keyword of
    it is a keyword of the resume the score is 100. *)
Theorem keywords_score_extremes (resume_text job_description : str) :
  job_description <> [] ->
  let jd_keywords := _extract_keywords (lower job_description) in
  let resume_keywords := _extract_keywords (lower resume_text) in
  (jd_keywords = [] ->
   (fst (_score_keywords resume_text job_description) == 0)%Q)
  /\ (jd_keywords <> [] ->
      (forall keyword, In keyword jd_keywords -> In keyword resume_keywords) ->
      (fst (_score_keywords resume_text job_description) == 100)%Q).
Proof.
  intros Hjd; unfold _score_keywords; cbv zeta.
  destruct job_description as [|c jd]; [congruence|].
  cbn [nonempty fst].
  set (jd_keywords := _extract_keywords (lower (c :: jd))).
  split.
  - intros ->; vm_compute; reflexivity.
  - intros Hne Hall.
    rewrite filter_all by (intros k Hk; apply mem_In, Hall, Hk).
    assert (Hn : (1 <= length jd_keywords)%nat).
    { destruct jd_keywords; [congruence | simpl; lia]. }
    replace (Nat.max (length jd_keywords) 1) with (length jd_keywords) by lia.
    assert (Hr : (Qnat (length jd_keywords) / Qnat (length jd_keywords) == 1)%Q).
    { unfold Qdiv; apply Qmult_inv_r.
      pose proof (Qnat_pos Hn) as Hp; intros E; rewrite E in Hp; lra. }
    match goal with
    | |- context [penalize_missing ?r ?s] =>
        destruct (penalize_missing_tier r s) as (p & Ht & Hp)
    end.
    rewrite max0_Qmax, Hp.
    assert (p = 0%Q) as ->.
    { destruct Ht as [(A & ->) | [(_ & A & ->) | [(_ & A & ->) | (_ & ->)]]];
        try reflexivity; rewrite Hr in A; exfalso; lra. }
    rewrite Hr; reflexivity.
Qed.

End ExtractKeywords.

Lemma keywords_matched_or_missing_witness :
  let data := snd (@_score_keywords basic_latin sample_resume_line
                     sample_job_description) in
  let jd_keywords :=
    @_extract_keywords basic_latin
      (@lower basic_latin sample_job_description) in
  let resume_keywords :=
    @_extract_keywords basic_latin (@lower basic_latin sample_resume_line) in
  (In (lit "python") (dict_get (lit "matched") data [])
   <-> In (lit "python") jd_keywords /\ In (lit "python") resume_keywords)
  /\ (In (lit "python") (dict_get (lit "missing") data [])
      <-> In (lit "python") jd_keywords /\ ~ In (lit "python") resume_keywords)
  /\ NoDup (dict_get (lit "matched") data [])
  /\ NoDup (dict_get (lit "missing") data []).
Proof.
  apply (@keywords_matched_or_missing basic_latin sample_resume_line
           sample_job_description (lit "python")).
  discriminate.
Defined.

Lemma keywords_score_extremes_witness :
  (fst (@_score_keywords basic_latin sample_resume_line short_job_description)
   == 0)%Q
  /\ (fst (@_score_keywords basic_latin sample_job_description
             sample_job_description)
      == 100)%Q.
Proof.
  split.
  - apply (@keywords_score_extremes basic_latin sample_resume_line
             short_job_description); [discriminate | reflexivity].
  - apply (@keywords_score_extremes basic_latin sample_job_description
             sample_job_description);
      [discriminate | vm_compute; discriminate | intros k H; exact H].
Defined.

(** ** The impact and content scorers *)

(** A part of a whole as a ratio; the ratio over an empty whole is 0. *)
Lemma part_ratio (m n : nat) :
  (m <= n)%nat -> (0 <= Qnat m / Qnat n)%Q /\ (Qnat m / Qnat n <= 1)%Q.
Proof.
  intros H; destruct n as [|n].
  - replace m with 0%nat by lia; split; vm_compute; discriminate.
  - replace (S n) with (Nat.max (S n) 1) by lia.
    apply ratio_bounds; lia.
Qed.

Section ImpactContent.
Context {U : Unicode}.

(** The impact score is between 0 and 100 for every text. *)
Lemma _score_impact_range (text : str) :
  (0 <= fst (_score_impact text))%Q /\ (fst (_score_impact text) <= 100)%Q.
Proof.
  unfold _score_impact; cbv zeta; unfold finish; cbn [fst].
  split; [apply max0_nonneg|].
  apply max0_le; [lra|].
  set (v := fold_left count_verbs (split_on NL text) _).
  match goal with
  | |- (score (?steps start) <= 100)%Q =>
      assert (Hs : keeps_below 100 steps)
  end.
  { below_steps.
    destruct (part_ratio (m := strong_verb_count v)
                (n := strong_verb_count v + weak_verb_count v
                      + no_verb_count v)) as (_ & Hst); [lia|].
    destruct (part_ratio (m := weak_verb_count v)
                (n := strong_verb_count v + weak_verb_count v
                      + no_verb_count v)) as (Hwk & _); [lia|].
    lra. }
  apply Hs; simpl; lra.
Qed.

(** X8. The content score is between 30 and 105, and it is above 100
    exactly when the text has the three sections, a summary marker and an
    at sign. *)
Theorem _score_content_range (text : str) :
  (30 <= fst (_score_content text))%Q
  /\ (fst (_score_content text) <= 105)%Q
  /\ ((100 < fst (_score_content text))%Q
      <-> has_any [ lit "experience"; lit "employment" ] text = true
          /\ has_any [ lit "education"; lit "degree" ] text = true
          /\ has_any [ lit "skills"; lit "technical" ] text = true
          /\ has_any [ lit "summary"; lit "objective"; lit "profile" ] text
             = true
          /\ contains [AT] text = true).
Proof.
  rewrite (_score_content_value text).
  destruct (has_any [ lit "experience"; lit "employment" ] text),
    (has_any [ lit "education"; lit "degree" ] text),
    (has_any [ lit "skills"; lit "technical" ] text),
    (has_any [ lit "summary"; lit "objective"; lit "profile" ] text),
    (contains [AT] text);
    settle_cases; intuition discriminate.
Qed.

Lemma content_score_of_monotone (a b c d e a' b' c' d' e' : bool) :
  (a = true -> a' = true) -> (b = true -> b' = true) ->
  (c = true -> c' = true) -> (d = true -> d' = true) ->
  (e = true -> e' = true) ->
  (content_score_of a b c d e <= content_score_of a' b' c' d' e')%Q.
Proof.
  intros Ha Hb Hc Hd He.
  destruct a; try rewrite (Ha eq_refl); clear Ha;
  destruct b; try rewrite (Hb eq_refl); clear Hb;
  destruct c; try rewrite (Hc eq_refl); clear Hc;
  destruct d; try rewrite (Hd eq_refl); clear Hd;
  destruct e; try rewrite (He eq_refl); clear He;
  repeat match goal with x : bool |- _ => destruct x end;
  vm_compute; discriminate.
Qed.

(** X9. Appending any text never lowers the content score. *)
Theorem _score_content_append (text more : str) :
  (fst (_score_content text) <= fst (_score_content (text ++ more)))%Q.
Proof.
  rewrite (_score_content_value text), (_score_content_value (text ++ more)).
  apply content_score_of_monotone;
    try apply has_any_app; apply contains_app_l.
Qed.

End ImpactContent.

(** ** The overall score *)

Lemma round_half_even_mono (a b : Q) :
  (a <= b)%Q -> (round_half_even a <= round_half_even b)%Z.
Proof.
  intros H; unfold round_half_even.
  pose proof (Qfloor_resp_le _ _ H) as Hf.
  pose proof (Qfloor_le a) as La. pose proof (Qlt_floor a) as Ua.
  pose proof (Qfloor_le b) as Lb. pose proof (Qlt_floor b) as Ub.
  rewrite inject_Z_plus in Ua, Ub.
  change (inject_Z 1) with 1%Q in Ua, Ub.
  set (fa := Qfloor a) in *; set (fb := Qfloor b) in *; clearbody fa fb.
  destruct (Z.eq_dec fa fb) as [->|Hne].
  - destruct (Qcompare (a - inject_Z fb) 0.5) eqn:Ca;
      [apply Qeq_alt in Ca | apply Qlt_alt in Ca | apply Qgt_alt in Ca];
      (destruct (Qcompare (b - inject_Z fb) 0.5) eqn:Cb;
       [apply Qeq_alt in Cb | apply Qlt_alt in Cb | apply Qgt_alt in Cb]);
      destruct (Z.even fb); try lia; exfalso; lra.
  - destruct (Qcompare (a - inject_Z fa) 0.5);
      destruct (Qcompare (b - inject_Z fb) 0.5);
      destruct (Z.even fa); destruct (Z.even fb); lia.
Qed.

Lemma round1_mono (a b : Q) : (a <= b)%Q -> (round1 a <= round1 b)%Q.
Proof.
  intros H; unfold round1.
  assert (H10 : (a * 10 <= b * 10)%Q) by lra.
  apply round_half_even_mono in H10; rewrite Zle_Qle in H10.
  unfold Qdiv; change (/ 10)%Q with (1 # 10)%Q; lra.
Qed.

Lemma _score_formatting_bounds (text : str) :
  (57 <= fst (_score_formatting text))%Q
  /\ (fst (_score_formatting text) <= 100)%Q.
Proof.
  unfold _score_formatting; cbv zeta; unfold finish; cbn [fst].
  destruct (length (split_on NL text) <? 10)%nat eqn:E1;
    destruct (100 <? length (split_on NL text))%nat eqn:E2;
    [ exfalso; apply Nat.ltb_lt in E1; apply Nat.ltb_lt in E2; lia | | | ];
    generalize (negb (length (filter (fun ch => contains ch text)
                                ATS_BREAKING_CHARS) =? 0)%nat);
    generalize (contains (lit "|") text || contains [BOX_LINE] text);
    generalize (contains [ZWSP] text || contains [BOM] text);
    generalize (contains (lit "  ") text);
    intros [|] [|] [|] [|]; split; vm_compute; discriminate.
Qed.

Lemma _score_structure_bounds {U : Unicode} (text : str) :
  (45 <= fst (_score_structure text))%Q
  /\ (fst (_score_structure text) <= 100)%Q.
Proof.
  unfold _score_structure; cbv zeta; unfold finish; cbn [fst].
  generalize (length (split_ws text)); intros word_count.
  generalize (length
                (filter (fun line => isupper line && (length line <? 30)%nat)
                   (split_on NL text)) <? 3)%nat.
  generalize (Qltb (Qnat (length (split_on NL text)) * 0.3)
                (Qnat (length
                         (filter (fun line => (100 <? length line)%nat)
                            (split_on NL text))))).
  generalize ((count [BULLET] text + count (lit "-") text
               + count (lit "*") text =? 0)%nat).
  generalize (word_count <? 200)%nat.
  generalize (1500 <? word_count)%nat.
  intros [|] [|] [|] [|] [|]; split; vm_compute; discriminate.
Qed.

Lemma _score_content_bounds {U : Unicode} (text : str) :
  (30 <= fst (_score_content text))%Q
  /\ (fst (_score_content text) <= 105)%Q.
Proof.
  rewrite (_score_content_value text).
  destruct (has_any [ lit "experience"; lit "employment" ] text),
    (has_any [ lit "education"; lit "degree" ] text),
    (has_any [ lit "skills"; lit "technical" ] text),
    (has_any [ lit "summary"; lit "objective"; lit "profile" ] text),
    (contains [AT] text);
    split; vm_compute; discriminate.
Qed.

(** X3. The ranges of a report: formatting in [57, 100], keywords and
    impact in [0, 100], content in [30, 105], structure in [45, 100], and
    the overall score in [21.9, 101]. *)
Theorem report_score_ranges {U : Unicode} (text jd : str) :
  let r := score_resume text jd in
  let b := breakdown r in
  ((57 <= d_score (formatting b))%Q /\ (d_score (formatting b) <= 100)%Q)
  /\ ((0 <= k_score (keywords b))%Q /\ (k_score (keywords b) <= 100)%Q)
  /\ ((0 <= d_score (impact b))%Q /\ (d_score (impact b) <= 100)%Q)
  /\ ((30 <= d_score (content b))%Q /\ (d_score (content b) <= 105)%Q)
  /\ ((45 <= d_score (structure b))%Q /\ (d_score (structure b) <= 100)%Q)
  /\ ((21.9 <= overall_score r)%Q /\ (overall_score r <= 101)%Q).
Proof.
  cbv zeta.
  destruct (_score_formatting_bounds text) as (F1 & F2).
  destruct (_score_keywords_range text jd) as (K1 & K2).
  destruct (_score_impact_range text) as (I1 & I2).
  destruct (_score_content_bounds text) as (C1 & C2).
  destruct (_score_structure_bounds text) as (S1 & S2).
  unfold score_resume.
  destruct (_score_formatting text), (_score_keywords text jd),
    (_score_impact text), (_score_content text), (_score_structure text).
  cbn [fst overall_score breakdown formatting keywords impact content
       structure d_score k_score] in *.
  assert (E1 : (round1 21.9 == 21.9)%Q) by (vm_compute; reflexivity).
  assert (E2 : (round1 101 == 101)%Q) by (vm_compute; reflexivity).
  repeat split; try assumption.
  - rewrite <- E1; apply round1_mono; lra.
  - rewrite <- E2; apply round1_mono; lra.
Qed.

(** ** The issue lists of a report *)

Lemma three_way_permutation {A} (p q : A -> bool) (l : list A) :
  Permutation
    (filter p l
     ++ filter (fun i => negb (p i) && negb (q i)) l
     ++ filter (fun i => negb (p i) && q i) l)
    l.
Proof.
  induction l as [|x l IH]; simpl; [constructor|].
  destruct (p x), (q x); simpl.
  - now constructor.
  - now constructor.
  - rewrite app_assoc; apply Permutation_sym, Permutation_cons_app.
    rewrite <- app_assoc; now apply Permutation_sym.
  - apply Permutation_sym, Permutation_cons_app; now apply Permutation_sym.
Qed.

Section IssueLists.
Context {U : Unicode}.

(** X10. Each issue list of a report keeps the order in which the items
    were produced: formatting feedback, the two dictionary keys, impact,
    content and structure feedback.  critical_issues is the sublist of the
    critical items, improvements that of the items that are not critical
    and mention an improvement word, warnings the rest. *)
Theorem report_issues_in_order (text jd : str) :
  let r := score_resume text jd in
  let produced :=
    d_feedback (formatting (breakdown r))
    ++ [ lit "matched"; lit "missing" ]
    ++ d_feedback (impact (breakdown r))
    ++ d_feedback (content (breakdown r))
    ++ d_feedback (structure (breakdown r)) in
  critical_issues (report_issues r) = filter is_critical produced
  /\ improvements (report_issues r)
     = filter (fun i => negb (is_critical i) && is_improvement i) produced
  /\ warnings (report_issues r)
     = filter (fun i => negb (is_critical i) && negb (is_improvement i))
         produced.
Proof.
  cbv zeta.
  assert (E : d_feedback (formatting (breakdown (score_resume text jd)))
              ++ [ lit "matched"; lit "missing" ]
              ++ d_feedback (impact (breakdown (score_resume text jd)))
              ++ d_feedback (content (breakdown (score_resume text jd)))
              ++ d_feedback (structure (breakdown (score_resume text jd)))
              = all_items
                  [ PyList (snd (_score_formatting text));
                    PyDict (snd (_score_keywords text jd));
                    PyList (snd (_score_impact text));
                    PyList (snd (_score_content text));
                    PyList (snd (_score_structure text)) ]).
  { rewrite score_resume_items; unfold score_resume.
    destruct (_score_formatting text), (_score_keywords text jd),
      (_score_impact text), (_score_content text), (_score_structure text).
    reflexivity. }
  rewrite E, score_resume_issues.
  apply _categorize_issues_filter.
Qed.

(** X11. The three issue lists together are a rearrangement of the feedback
    strings of the four scorers and the two dictionary keys: nothing is
    dropped or repeated, and the report lists two issues more than the
    scorers gave feedback strings. *)
Theorem report_issues_permutation (text jd : str) :
  let r := score_resume text jd in
  Permutation
    (critical_issues (report_issues r) ++ warnings (report_issues r)
     ++ improvements (report_issues r))
    (lit "matched" :: lit "missing" :: dimension_feedback r)
  /\ (length (critical_issues (report_issues r))
      + length (warnings (report_issues r))
      + length (improvements (report_issues r))
      = length (dimension_feedback r) + 2)%nat.
Proof.
  cbv zeta.
  assert (P : Permutation
                (critical_issues (report_issues (score_resume text jd))
                 ++ warnings (report_issues (score_resume text jd))
                 ++ improvements (report_issues (score_resume text jd)))
                (lit "matched" :: lit "missing"
                 :: dimension_feedback (score_resume text jd))).
  { rewrite score_resume_issues.
    match goal with
    | |- context [_categorize_issues ?l] =>
        destruct (_categorize_issues_filter l) as (-> & -> & ->)
    end.
    rewrite three_way_permutation, score_resume_items, score_resume_feedback.
    apply Permutation_sym.
    change (lit "matched" :: lit "missing" :: ?l)
      with ([ lit "matched"; lit "missing" ] ++ l).
    apply Permutation_app_swap_app. }
  split; [exact P|].
  apply Permutation_length in P.
  rewrite !length_app in P; simpl in P; lia.
Qed.

End IssueLists.

(** ** The endpoints of checker.py *)

(** X12. A resume of fewer than 100 characters is answered with status 500
    and the detail [Failed to analyze resume]: the 400 the endpoint raises
    is caught by its own handler.  A longer one is answered with the report
    of [score_resume], an absent job description counting as empty.  No
    request is answered with status 400. *)
Theorem analyze_resume_outcome {U : Unicode} (request : AnalysisRequest) :
  ((length (resume_text request) < 100)%nat ->
   analyze_resume request
   = Checker.Raise
       (Checker.HTTPException 500 (lit "Failed to analyze resume")))
  /\ ((100 <= length (resume_text request))%nat ->
      analyze_resume request
      = Checker.Return
          (score_resume (resume_text request)
             (match job_description request with
              | Some jd => jd
              | None => []
              end)))
  /\ forall detail,
       analyze_resume request
       <> Checker.Raise (Checker.HTTPException 400 detail).
Proof.
  unfold analyze_resume, analyze_body.
  destruct (length (resume_text request) <? 100)%nat eqn:E.
  - apply Nat.ltb_lt in E; repeat split; try reflexivity; try lia.
    intros detail; discriminate.
  - apply Nat.ltb_ge in E; repeat split; try reflexivity; try lia.
    intros detail; discriminate.
Qed.

(** X13. The upload endpoint returns the extracted text or raises status
    500 with the detail [Failed to parse resume], whatever the parser does;
    a file name that ends in none of .pdf, .docx, .txt (the comparison is
    case-sensitive) is among the latter. *)
Theorem upload_resume_outcome
  (parse_pdf parse_docx decode_utf8 : bytes -> Checker.raising str)
  (filename : str) (content : bytes) :
  ((exists text,
       Checker.upload_resume parse_pdf parse_docx decode_utf8 filename content
       = Checker.Return text)
   \/ Checker.upload_resume parse_pdf parse_docx decode_utf8 filename content
      = Checker.Raise
          (Checker.HTTPException 500 (lit "Failed to parse resume")))
  /\ (Checker.endswith (lit ".pdf") filename = false ->
      Checker.endswith (lit ".docx") filename = false ->
      Checker.endswith (lit ".txt") filename = false ->
      Checker.upload_resume parse_pdf parse_docx decode_utf8 filename content
      = Checker.Raise
          (Checker.HTTPException 500 (lit "Failed to parse resume"))).
Proof.
  unfold Checker.upload_resume, Checker.parse_upload; split.
  - destruct (Checker.endswith (lit ".pdf") filename);
      [destruct (parse_pdf content); eauto|].
    destruct (Checker.endswith (lit ".docx") filename);
      [destruct (parse_docx content); eauto|].
    destruct (Checker.endswith (lit ".txt") filename);
      [destruct (decode_utf8 content); eauto|].
    now right.
  - now intros -> -> ->.
Qed.

(** An upper-case extension is not recognised by the upload endpoint. *)
Lemma upload_resume_upper_case
  (parse_pdf parse_docx decode_utf8 : bytes -> Checker.raising str) :
  Checker.upload_resume parse_pdf parse_docx decode_utf8 (lit "RESUME.PDF")
    pdf_header
  = Checker.Raise (Checker.HTTPException 500 (lit "Failed to parse resume")).
Proof. reflexivity. Qed.

(** ** The handler of score-file.js *)

Lemma split_by_not_nil (sep : N -> bool) (s : str) : split_by sep s <> [].
Proof.
  destruct s as [|x s]; simpl; [discriminate|].
  destruct (sep x); [discriminate|].
  destruct (split_by sep s); discriminate.
Qed.

(** One piece more than separators. *)
Lemma split_by_length (sep : N -> bool) (s : str) :
  length (split_by sep s) = S (length (filter sep s)).
Proof.
  induction s as [|x s IH]; simpl; [reflexivity|].
  destruct (sep x); simpl; [now rewrite IH|].
  destruct (split_by sep s); simpl in *; [discriminate | exact IH].
Qed.

(** After the last separator comes the last piece. *)
Lemma last_split_by (sep : N -> bool) (base rest : str) (c : N) :
  sep c = true -> (forall x, In x rest -> sep x = false) ->
  last (split_by sep (base ++ c :: rest)) [] = rest.
Proof.
  intros Hc Hrest.
  assert (R : split_by sep rest = [rest]).
  { clear Hc; induction rest as [|x rest IH]; simpl; [reflexivity|].
    rewrite (Hrest x (or_introl eq_refl)), IH; [reflexivity|].
    intros y Hy; apply Hrest; now right. }
  induction base as [|x base IH]; simpl.
  - rewrite Hc, R; reflexivity.
  - pose proof (split_by_length sep (base ++ c :: rest)) as L.
    rewrite filter_app in L; simpl in L; rewrite Hc, length_app in L.
    simpl in L.
    destruct (sep x);
      destruct (split_by sep (base ++ c :: rest)) as [|l [|l' ls]];
      simpl in L; try lia; exact IH.
Qed.

Section Extraction.
Context {U : Unicode}.
Variable toString_utf8 : bytes -> str.
Variable from_base64 : str -> bytes.
Variable pdfParse : bytes -> outcome jsval.
Variable extractRawText : bytes -> outcome jsval.

(** X14. The extension is the lower-cased text after the last dot of the
    file name, so upper-case extensions are recognised; a name without a
    dot has the empty extension and is always rejected as unsupported. *)
Theorem extension_of_last_dot :
  (forall base ext,
      ~ In DOT ext -> ScoreFile.extension_of (base ++ DOT :: ext) = lower ext)
  /\ (forall filename content,
         ~ In DOT filename ->
         ScoreFile.extension_of filename = []
         /\ ScoreFile.extractTextFromUpload toString_utf8 pdfParse
              extractRawText filename content
            = Thrown (lit "Unsupported file type.")).
Proof.
  split.
  - intros base ext Hext; unfold ScoreFile.extension_of.
    assert (C : contains (lit ".") (base ++ DOT :: ext) = true).
    { apply contains_occurs; now exists base, ext. }
    rewrite C; unfold split_on; rewrite last_split_by; [reflexivity | | ].
    + apply N.eqb_refl.
    + intros x Hx; apply N.eqb_neq; intros <-; exact (Hext Hx).
  - intros filename content Hdot.
    assert (E : ScoreFile.extension_of filename = []).
    { unfold ScoreFile.extension_of.
      destruct (contains (lit ".") filename) eqn:C; [|reflexivity].
      apply (contains_char DOT) in C; contradiction. }
    split; [exact E|].
    unfold ScoreFile.extractTextFromUpload; rewrite E; reflexivity.
Qed.

(** X15. A txt or md file is returned as the decoded payload: the
    extraction does not fail and does not depend on the two libraries. *)
Theorem plain_text_is_decoded (filename : str) (content : bytes) :
  ScoreFile.extension_of filename = lit "txt"
  \/ ScoreFile.extension_of filename = lit "md" ->
  forall pdfParse' extractRawText',
    ScoreFile.extractTextFromUpload toString_utf8 pdfParse' extractRawText'
      filename content
    = Returned (toString_utf8 content).
Proof.
  intros [E|E] p e; unfold ScoreFile.extractTextFromUpload; rewrite E;
    reflexivity.
Qed.

(** The six ways through the handler. *)
Lemma handler_cases (ev : ScoreFile.event) :
  let response :=
    ScoreFile.handler toString_utf8 from_base64 pdfParse extractRawText ev in
  (ScoreFile.httpMethod ev = lit "OPTIONS"
   /\ response = {| ScoreFile.statusCode := 204;
                    ScoreFile.payload := ScoreFile.NoBody |})
  \/ (ScoreFile.httpMethod ev <> lit "OPTIONS"
      /\ ScoreFile.httpMethod ev <> lit "POST"
      /\ response
         = ScoreFile.jsonResponse 405
             (ScoreFile.ErrorBody (lit "Method not allowed.")))
  \/ (ScoreFile.httpMethod ev = lit "POST"
      /\ ScoreFile.parsed_body ev = None
      /\ response
         = ScoreFile.jsonResponse 400
             (ScoreFile.ErrorBody (lit "Invalid JSON payload.")))
  \/ (ScoreFile.httpMethod ev = lit "POST"
      /\ (exists filename contentBase64,
             ScoreFile.parsed_body ev = Some (filename, contentBase64)
             /\ falsy filename || falsy contentBase64 = true)
      /\ response
         = ScoreFile.jsonResponse 400
             (ScoreFile.ErrorBody (lit "Missing filename or file content.")))
  \/ (exists filename contentBase64 message,
        ev = post filename contentBase64
        /\ filename <> [] /\ contentBase64 <> []
        /\ ScoreFile.extractTextFromUpload toString_utf8 pdfParse
             extractRawText filename (from_base64 contentBase64)
           = Thrown message
        /\ response
           = ScoreFile.jsonResponse 400
               (ScoreFile.ErrorBody (lit "Unable to read file.")))
  \/ (exists filename contentBase64 text,
        ev = post filename contentBase64
        /\ filename <> [] /\ contentBase64 <> []
        /\ ScoreFile.extractTextFromUpload toString_utf8 pdfParse
             extractRawText filename (from_base64 contentBase64)
           = Returned text
        /\ response
           = ScoreFile.jsonResponse 200
               (ScoreFile.ScoreBody (ScoreFile.scoreFromText text))).
Proof.
  cbv zeta; unfold ScoreFile.handler.
  destruct ev as [method parsed];
    cbn [ScoreFile.httpMethod ScoreFile.parsed_body].
  destruct (str_eqb method (lit "OPTIONS")) eqn:EO.
  { apply str_eqb_eq in EO; left; split; [exact EO | reflexivity]. }
  assert (NO : method <> lit "OPTIONS").
  { intros ->; rewrite (proj2 (str_eqb_eq _ _) eq_refl) in EO; discriminate. }
  destruct (str_eqb method (lit "POST")) eqn:EP; cbn [negb].
  2:{ right; left; repeat split; [exact NO|].
      intros ->; rewrite (proj2 (str_eqb_eq _ _) eq_refl) in EP;
        discriminate. }
  apply str_eqb_eq in EP; subst method.
  destruct parsed as [[filename contentBase64]|].
  2:{ right; right; left; repeat split. }
  destruct (falsy filename || falsy contentBase64) eqn:F.
  { right; right; right; left; split; [reflexivity|]; split; [|reflexivity].
    exists filename, contentBase64; split; [reflexivity | exact F]. }
  apply orb_false_iff in F; destruct F as (Ff & Fc).
  destruct filename as [|filename]; [discriminate|].
  destruct contentBase64 as [|contentBase64]; [discriminate|].
  assert (filename <> []) by (intros ->; discriminate).
  assert (contentBase64 <> []) by (intros ->; discriminate).
  cbn [or_empty].
  destruct (ScoreFile.extractTextFromUpload toString_utf8 pdfParse
              extractRawText filename (from_base64 contentBase64))
    as [text|message] eqn:X.
  - do 5 right; exists filename, contentBase64, text; repeat split; auto.
  - do 4 right; left; exists filename, contentBase64, message;
      repeat split; auto.
Qed.

(** X16. On events whose [filename] and [contentBase64] are strings or
    absent, the handler answers with status 204 exactly for the method
    OPTIONS, with 405 exactly for a method that is neither OPTIONS nor POST,
    and with 200 exactly for a POST whose file name and payload are
    non-empty and whose extraction returns; the body is then the score of
    the extracted text.  Every other request gets 400. *)
Theorem handler_status (ev : ScoreFile.event) :
  let response :=
    ScoreFile.handler toString_utf8 from_base64 pdfParse extractRawText ev in
  In (ScoreFile.statusCode response) [ 200; 204; 400; 405 ]%Z
  /\ (ScoreFile.statusCode response = 204%Z
      <-> ScoreFile.httpMethod ev = lit "OPTIONS")
  /\ (ScoreFile.statusCode response = 405%Z
      <-> ScoreFile.httpMethod ev <> lit "OPTIONS"
          /\ ScoreFile.httpMethod ev <> lit "POST")
  /\ (ScoreFile.statusCode response = 200%Z
      <-> exists filename contentBase64 text,
            ev = post filename contentBase64
            /\ filename <> [] /\ contentBase64 <> []
            /\ ScoreFile.extractTextFromUpload toString_utf8 pdfParse
                 extractRawText filename (from_base64 contentBase64)
               = Returned text
            /\ ScoreFile.payload response
               = ScoreFile.ScoreBody (ScoreFile.scoreFromText text)).
Proof.
  cbv zeta.
  assert (PO : lit "POST" <> lit "OPTIONS") by discriminate.
  destruct (handler_cases ev)
    as [(M & ->) | [(M1 & M2 & ->) | [(M & P & ->) | [(M & P & ->)
       | [(f & c & m & -> & Hf & Hc & X & ->)
         | (f & c & t & -> & Hf & Hc & X & ->)]]]]];
    cbn [ScoreFile.statusCode ScoreFile.jsonResponse ScoreFile.payload
         ScoreFile.httpMethod post] in *.
  - split; [simpl; tauto|]. split; [tauto|]. split.
    + split; [discriminate | intros (A & _); contradiction].
    + split; [discriminate|].
      intros (f & c & t & E & _); subst ev; discriminate M.
  - split; [simpl; tauto|]. split; [split; [discriminate | contradiction]|].
    split; [tauto|]. split; [discriminate|].
    intros (f & c & t & E & _); subst ev; contradiction.
  - rewrite M. split; [simpl; tauto|].
    split; [split; [discriminate | intros E; contradiction]|].
    split; [split; [discriminate | intros (_ & A); contradiction]|].
    split; [discriminate|].
    intros (f & c & t & E & _); subst ev; discriminate P.
  - rewrite M. split; [simpl; tauto|].
    split; [split; [discriminate | intros E; contradiction]|].
    split; [split; [discriminate | intros (_ & A); contradiction]|].
    split; [discriminate|].
    destruct P as (f0 & c0 & P & F).
    intros (f & c & t & E & Hf & Hc & _); subst ev.
    injection P as <- <-.
    destruct f; [contradiction|]; destruct c; [contradiction|]; discriminate F.
  - split; [simpl; tauto|].
    split; [split; [discriminate | intros E; contradiction]|].
    split; [split; [discriminate | intros (_ & A); contradiction]|].
    split; [discriminate|].
    intros (f' & c' & t & E & _ & _ & X' & _).
    injection E as <- <-; rewrite X in X'; discriminate X'.
  - split; [simpl; tauto|].
    split; [split; [discriminate | intros E; contradiction]|].
    split; [split; [discriminate | intros (_ & A); contradiction]|].
    split; [|reflexivity].
    intros _; exists f, c, t; repeat split; assumption.
Qed.

End Extraction.

Lemma plain_text_is_decoded_witness :
  @ScoreFile.extractTextFromUpload basic_latin decode_7bit rejects rejects
    (lit "Notes.Final.TXT") pdf_header
  = Returned (decode_7bit pdf_header).
Proof.
  exact (@plain_text_is_decoded basic_latin decode_7bit
           (lit "Notes.Final.TXT") pdf_header (or_introl eq_refl)
           rejects rejects).
Defined.

(** ** scoreFromText *)




(** *** Appending text *)

Lemma drop_while_app_stop (p : N -> bool) (a b : str) (c : N) :
  p c = false -> drop_while p (a ++ c :: b) = drop_while p a ++ c :: b.
Proof.
  intros Hc; induction a as [|x a IH]; simpl; [now rewrite Hc|].
  destruct (p x); [exact IH | reflexivity].
Qed.

Lemma drop_while_app_kept (p : N -> bool) (l m : str) :
  drop_while p l <> [] -> drop_while p (l ++ m) = drop_while p l ++ m.
Proof.
  induction l as [|x l IH]; simpl; [congruence|].
  destruct (p x); [exact IH | reflexivity].
Qed.

Lemma drop_while_suffix (p : N -> bool) (s : str) :
  exists taken, s = taken ++ drop_while p s.
Proof.
  induction s as [|x s (taken & IH)]; simpl; [now exists []|].
  destruct (p x); [|now exists []].
  exists (x :: taken); simpl; now rewrite <- IH.
Qed.

(** Trimming the end leaves a prefix. *)
Lemma trim_end_prefix (s : str) : exists tail, s = trim_end s ++ tail.
Proof.
  unfold trim_end.
  destruct (drop_while_suffix js_whitespace (rev s)) as (taken & E).
  exists (rev taken).
  rewrite <- rev_app_distr, <- E; symmetry; apply rev_involutive.
Qed.

(** Trimming the end keeps everything up to a character that is not white
    space. *)
Lemma trim_end_keep (pre post : str) (c : N) :
  js_whitespace c = false ->
  trim_end (pre ++ c :: post) = pre ++ c :: trim_end post.
Proof.
  intros Hc; unfold trim_end.
  rewrite rev_app_distr; simpl; rewrite <- app_assoc; simpl.
  rewrite (@drop_while_app_stop _ _ _ _ Hc), rev_app_distr; simpl.
  now rewrite rev_involutive, <- app_assoc.
Qed.

Lemma trim_trim_end (s : str) : trim s = trim_end (drop_while js_whitespace s).
Proof. reflexivity. Qed.

(** A line that starts, after trimming, with a marker ending in a visible
    character still does when text is appended to it. *)
Lemma marker_grows (pre : str) (c : N) :
  js_whitespace c = false ->
  grows (fun line => startswith (pre ++ [c]) (trim line)).
Proof.
  intros Hc l m H; rewrite trim_trim_end in *.
  apply startswith_prefix in H; destruct H as (x & H).
  destruct (trim_end_prefix (drop_while js_whitespace l)) as (tail & E).
  rewrite H in E.
  assert (Hne : drop_while js_whitespace l <> []).
  { rewrite E; destruct pre; discriminate. }
  rewrite (@drop_while_app_kept _ l m Hne), E.
  rewrite <- !app_assoc; simpl.
  rewrite (@trim_end_keep pre _ _ Hc).
  apply startswith_prefix; eexists.
  rewrite <- app_assoc; reflexivity.
Qed.

Lemma is_bullet_grows : grows (fun line => is_bullet (trim line)).
Proof.
  intros l m H; unfold is_bullet in *.
  apply orb_true_iff in H; apply orb_true_iff; destruct H as [H|H].
  - left; exact (@marker_grows [] 45 eq_refl l m H).
  - right; exact (@marker_grows [226%N; 8364%N] 162 eq_refl l m H).
Qed.

(** The pieces of [t ++ more]: those of [t], the last one joined to the
    first piece of [more], then the other pieces of [more]. *)
Lemma split_by_app (sep : N -> bool) (t more : str) :
  exists ls l h rest,
    split_by sep t = ls ++ [l]
    /\ split_by sep more = h :: rest
    /\ split_by sep (t ++ more) = ls ++ (l ++ h) :: rest.
Proof.
  destruct (split_by sep more) as [|h rest] eqn:M;
    [now apply split_by_not_nil in M|].
  induction t as [|x t (ls & l & h' & rest' & E1 & E2 & E3)]; simpl.
  - exists [], [], h, rest; rewrite M; auto.
  - injection E2 as <- <-.
    destruct (sep x).
    + exists ([] :: ls), l, h, rest; rewrite E1, E3; auto.
    + rewrite E1, E3; destruct ls as [|l0 ls]; simpl.
      * exists [], (x :: l), h, rest; auto.
      * exists ((x :: l0) :: ls), l, h, rest; auto.
Qed.

(** Appending text never lowers the number of pieces that pass a test which
    survives appending. *)
Lemma count_pieces_app (sep : N -> bool) (f : str -> bool) (t more : str) :
  grows f ->
  (length (filter f (split_by sep t))
   <= length (filter f (split_by sep (t ++ more))))%nat.
Proof.
  intros Hf.
  destruct (split_by_app sep t more) as (ls & l & h & rest & -> & _ & ->).
  rewrite !filter_app, !length_app; simpl.
  destruct (f l) eqn:E; [rewrite (Hf l h E)|]; simpl; lia.
Qed.

Lemma filter_map_length {A B} (f : B -> bool) (g : A -> B) (l : list A) :
  length (filter f (map g l)) = length (filter (fun x => f (g x)) l).
Proof.
  induction l as [|x l IH]; simpl; [reflexivity|].
  destruct (f (g x)); simpl; now rewrite IH.
Qed.

Lemma credit_score (b : bool) (pts : Z) (msg : str) (r : ScoreFile.result) :
  ScoreFile.score (ScoreFile.credit b pts msg r)
  = (ScoreFile.score r + if b then pts else 0)%Z.
Proof. unfold ScoreFile.credit; destruct b; simpl; lia. Qed.

Section UploadScore.
Context {U : Unicode}.

(** The score from the six tests of [scoreFromText]. *)
Lemma scoreFromText_points (text : str) :
  ScoreFile.score (ScoreFile.scoreFromText text)
  = upload_points
      (800 <=? length text)%nat
      (contains (lit "skills") (lower text))
      (has_any [ lit "experience"; lit "work history"; lit "employment" ] text)
      (has_any [ lit "education"; lit "degree"; lit "university";
                 lit "college" ] text)
      (5 <=? length (filter is_bullet (map trim (split_on NL text))))%nat
      (contains (lit "@") (lower text)).
Proof.
  unfold ScoreFile.scoreFromText; cbv zeta; cbn [ScoreFile.score].
  rewrite !credit_score; cbn [ScoreFile.score].
  unfold upload_points, has_any; reflexivity.
Qed.

Lemma upload_points_monotone (a b c d e f a' b' c' d' e' f' : bool) :
  (a = true -> a' = true) -> (b = true -> b' = true) ->
  (c = true -> c' = true) -> (d = true -> d' = true) ->
  (e = true -> e' = true) -> (f = true -> f' = true) ->
  (upload_points a b c d e f <= upload_points a' b' c' d' e' f')%Z.
Proof.
  intros Ha Hb Hc Hd He Hf; unfold upload_points.
  apply Z.min_le_compat_r.
  assert (forall x x' (n : Z), (0 <= n)%Z -> (x = true -> x' = true) ->
            ((if x then n else 0) <= (if x' then n else 0))%Z) as M.
  { intros [|] [|] n Hn Hx; try lia; discriminate (Hx eq_refl). }
  pose proof (M a a' 10%Z ltac:(lia) Ha).
  pose proof (M b b' 8%Z ltac:(lia) Hb).
  pose proof (M c c' 12%Z ltac:(lia) Hc).
  pose proof (M d d' 6%Z ltac:(lia) Hd).
  pose proof (M e e' 10%Z ltac:(lia) He).
  pose proof (M f f' 5%Z ltac:(lia) Hf).
  lia.
Qed.

(** X18. Appending text to an upload never lowers its score. *)
Theorem scoreFromText_append (text more : str) :
  (ScoreFile.score (ScoreFile.scoreFromText text)
   <= ScoreFile.score (ScoreFile.scoreFromText (text ++ more)))%Z.
Proof.
  rewrite !scoreFromText_points.
  apply upload_points_monotone.
  - rewrite !Nat.leb_le, length_app; lia.
  - rewrite lower_app; apply contains_app_l.
  - apply has_any_app.
  - apply has_any_app.
  - rewrite !Nat.leb_le, !filter_map_length.
    pose proof (@count_pieces_app (N.eqb NL) _ text more is_bullet_grows) as H.
    unfold split_on; lia.
  - rewrite lower_app; apply contains_app_l.
Qed.

End UploadScore.

(** ** Adding words to a resume *)

Lemma split_by_app_sep (sep : N -> bool) (t more : str) (c : N) :
  sep c = true ->
  split_by sep (t ++ c :: more) = split_by sep t ++ split_by sep more.
Proof.
  intros Hc; induction t as [|x t IH]; simpl; [now rewrite Hc|].
  rewrite IH; destruct (sep x); [reflexivity|].
  destruct (split_by sep t) eqn:E; [now apply split_by_not_nil in E|].
  reflexivity.
Qed.

Lemma filter_length_mono {A} (f g : A -> bool) (l : list A) :
  (forall x, f x = true -> g x = true) ->
  (length (filter f l) <= length (filter g l))%nat.
Proof.
  intros H; induction l as [|x l IH]; simpl; [lia|].
  destruct (f x) eqn:E; [rewrite (H x E); simpl; lia|].
  destruct (g x); simpl; lia.
Qed.

Lemma max0_mono (a b : Q) : (a <= b)%Q -> (max0 a <= max0 b)%Q.
Proof.
  intros H; unfold max0.
  destruct (Qltb 0 a) eqn:A; destruct (Qltb 0 b) eqn:B;
    try apply Qltb_lt in A; try apply Qltb_ge in A;
    try apply Qltb_lt in B; try apply Qltb_ge in B; lra.
Qed.

(** A higher match ratio never gives a lower score. *)
Lemma penalize_missing_mono (r r' : Q) :
  (r <= r')%Q ->
  (penalize_missing r (r * 100) <= penalize_missing r' (r' * 100))%Q.
Proof.
  intros H; unfold penalize_missing.
  destruct (Qltb r 0.3) eqn:A3; destruct (Qltb r 0.5) eqn:A5;
    destruct (Qltb r 0.7) eqn:A7;
    destruct (Qltb r' 0.3) eqn:B3; destruct (Qltb r' 0.5) eqn:B5;
    destruct (Qltb r' 0.7) eqn:B7;
    try apply Qltb_lt in A3; try apply Qltb_ge in A3;
    try apply Qltb_lt in A5; try apply Qltb_ge in A5;
    try apply Qltb_lt in A7; try apply Qltb_ge in A7;
    try apply Qltb_lt in B3; try apply Qltb_ge in B3;
    try apply Qltb_lt in B5; try apply Qltb_ge in B5;
    try apply Qltb_lt in B7; try apply Qltb_ge in B7; lra.
Qed.

Section AddingWords.
Context {U : Unicode}.

Lemma lower_space (a b : str) :
  lower (a ++ lit " " ++ b) = lower a ++ 32%N :: lower b.
Proof.
  rewrite !lower_app.
  rewrite (lower_ascii (s := lit " ")) by (apply all_ascii; reflexivity).
  reflexivity.
Qed.

Lemma _extract_keywords_space (a b : str) :
  _extract_keywords (a ++ 32%N :: b)
  = _extract_keywords a ++ _extract_keywords b.
Proof.
  unfold _extract_keywords, split_ws.
  rewrite split_by_app_sep, !filter_app; [reflexivity|].
  rewrite cp_isspace_ascii by reflexivity; reflexivity.
Qed.

(** X19. Adding words to a resume after a space never lowers its keywords
    score, with or without a job description. *)
Theorem _score_keywords_more_words (resume_text more job_description : str) :
  (fst (_score_keywords resume_text job_description)
   <= fst (_score_keywords (resume_text ++ lit " " ++ more) job_description))%Q.
Proof.
  unfold _score_keywords; cbv zeta.
  destruct (nonempty job_description); cbn [fst]; apply max0_mono.
  - apply penalize_missing_mono.
    rewrite lower_space, _extract_keywords_space.
    set (jd_keywords := _extract_keywords (lower job_description)).
    assert (Hpos : (0 < Qnat (Nat.max (length jd_keywords) 1))%Q)
      by (apply Qnat_pos; lia).
    unfold Qdiv; apply Qmult_le_compat_r.
    + apply Qnat_le, filter_length_mono.
      intros k Hk; apply mem_In; apply mem_In in Hk.
      apply in_or_app; now left.
    + apply Qlt_le_weak, Qinv_lt_0_compat, Hpos.
  - assert (L : (length
                   (filter (fun keyword => contains keyword (lower resume_text))
                      TECHNICAL_KEYWORDS)
                 <= length
                      (filter
                         (fun keyword =>
                            contains keyword
                              (lower (resume_text ++ lit " " ++ more)))
                         TECHNICAL_KEYWORDS))%nat).
    { apply filter_length_mono; intros k Hk.
      rewrite lower_app; now apply contains_app_l. }
    revert L.
    generalize (length
                  (filter (fun keyword => contains keyword (lower resume_text))
                     TECHNICAL_KEYWORDS)).
    generalize (length
                  (filter
                     (fun keyword =>
                        contains keyword
                          (lower (resume_text ++ lit " " ++ more)))
                     TECHNICAL_KEYWORDS)).
    intros n' n L.
    destruct n as [|[|[|n]]]; destruct n' as [|[|[|n']]]; try lia;
      vm_compute; discriminate.
Qed.

End AddingWords.

(** ** The verbs of the impact scorer *)

Section ImpactVerbs.
Context {U : Unicode}.

(** One turn of the loop adds one to the counter of the line's class, and
    nothing for a line it skips. *)
Lemma count_verbs_step (v : verb_counts) (line : str) :
  strong_verb_count (count_verbs v line)
  = (strong_verb_count v
     + if classifiable line && has_verb STRONG_VERBS line then 1 else 0)%nat
  /\ weak_verb_count (count_verbs v line)
     = (weak_verb_count v
        + if classifiable line && negb (has_verb STRONG_VERBS line)
             && has_verb WEAK_VERBS line
          then 1 else 0)%nat
  /\ no_verb_count (count_verbs v line)
     = (no_verb_count v
        + if classifiable line && negb (has_verb STRONG_VERBS line)
             && negb (has_verb WEAK_VERBS line)
          then 1 else 0)%nat.
Proof.
  unfold count_verbs, classifiable, has_verb.
  destruct ((length line <? 5)%nat || isupper line);
    [cbn [negb andb]; repeat split; lia|].
  destruct (existsb (fun verb => contains verb (lower line)) STRONG_VERBS);
    [cbn [negb andb strong_verb_count weak_verb_count no_verb_count];
     repeat split; lia|].
  destruct (existsb (fun verb => contains verb (lower line)) WEAK_VERBS);
    cbn [negb andb strong_verb_count weak_verb_count no_verb_count];
    repeat split; lia.
Qed.

(** The three counters after the loop: each counts its class of lines. *)
Lemma count_verbs_fold (lines : list str) (v : verb_counts) :
  let out := fold_left count_verbs lines v in
  strong_verb_count out
  = (strong_verb_count v
     + length (filter (fun l => classifiable l && has_verb STRONG_VERBS l)
                 lines))%nat
  /\ weak_verb_count out
     = (weak_verb_count v
        + length (filter (fun l => classifiable l
                                   && negb (has_verb STRONG_VERBS l)
                                   && has_verb WEAK_VERBS l)
                    lines))%nat
  /\ no_verb_count out
     = (no_verb_count v
        + length (filter (fun l => classifiable l
                                   && negb (has_verb STRONG_VERBS l)
                                   && negb (has_verb WEAK_VERBS l))
                    lines))%nat.
Proof.
  revert v; induction lines as [|line lines IH]; intros v;
    cbn [fold_left filter length].
  - cbv zeta; repeat split; lia.
  - destruct (IH (count_verbs v line)) as (Hs & Hw & Hn).
    destruct (count_verbs_step v line) as (Ss & Sw & Sn).
    cbv zeta in *; rewrite Hs, Hw, Hn, Ss, Sw, Sn.
    destruct (classifiable line && has_verb STRONG_VERBS line);
      destruct (classifiable line && negb (has_verb STRONG_VERBS line)
                && has_verb WEAK_VERBS line);
      destruct (classifiable line && negb (has_verb STRONG_VERBS line)
                && negb (has_verb WEAK_VERBS line));
      cbn [length]; repeat split; lia.
Qed.

Lemma max0_comp (a b : Q) : (a == b)%Q -> (max0 a == max0 b)%Q.
Proof. intros E; rewrite !max0_Qmax, E; reflexivity. Qed.

Lemma filter_none {A} (f : A -> bool) (l : list A) :
  (forall x, In x l -> f x = false) -> filter f l = [].
Proof.
  induction l as [|x l IH]; simpl; intros H; [reflexivity|].
  rewrite (H x (or_introl eq_refl)); apply IH; intros y Hy; apply H; now right.
Qed.

Lemma filter_some {A} (f : A -> bool) (l : list A) (x : A) :
  In x l -> f x = true -> (1 <= length (filter f l))%nat.
Proof.
  intros Hin Hf.
  assert (H : In x (filter f l)) by (apply filter_In; auto).
  destruct (filter f l); [destruct H | simpl; lia].
Qed.

(** The impact score from the verb counters and the two deductions. *)
Lemma _score_impact_value (text : str) :
  let v := fold_left count_verbs (split_on NL text)
             {| strong_verb_count := 0; weak_verb_count := 0;
                no_verb_count := 0 |} in
  let total :=
    (strong_verb_count v + weak_verb_count v + no_verb_count v)%nat in
  (fst (_score_impact text)
   == max0 ((if (0 <? total)%nat then
               Qnat (strong_verb_count v) / Qnat total * 100 * 0.5
               + (100 - Qnat (weak_verb_count v) / Qnat total * 100) * 0.5
             else 100)
            - impact_deductions text))%Q.
Proof.
  unfold _score_impact, impact_deductions, finish; cbv zeta; cbn [fst].
  set (v := fold_left count_verbs (split_on NL text) _).
  generalize (Qnat (strong_verb_count v)
              / Qnat (strong_verb_count v + weak_verb_count v
                      + no_verb_count v) * 100 * 0.5
              + (100 - Qnat (weak_verb_count v)
                       / Qnat (strong_verb_count v + weak_verb_count v
                               + no_verb_count v) * 100) * 0.5)%Q.
  generalize (Qltb 50 (Qnat (weak_verb_count v)
                       / Qnat (strong_verb_count v + weak_verb_count v
                               + no_verb_count v) * 100)).
  generalize (0 <? strong_verb_count v + weak_verb_count v
                   + no_verb_count v)%nat.
  generalize (count_metrics text <? 3)%nat.
  generalize (5 <? list_sum (map (fun indicator => count indicator text)
                               passive_indicators))%nat.
  intros [|] [|] [|] [|] x;
    unfold when, seq, sub, say, set_score, start; cbn [score];
    apply max0_comp; ring.
Qed.

(** X20. When the text has a line the scorer looks at (five characters or
    more, not upper-case): if every such line contains a strong verb the
    impact score is 100 minus the deductions for metrics and passive voice;
    if every such line contains a weak verb and no strong one, the impact
    score is 0. *)
Theorem _score_impact_extremes (text : str) :
  (exists line, In line (split_on NL text) /\ classifiable line = true) ->
  ((forall line, In line (split_on NL text) -> classifiable line = true ->
                 has_verb STRONG_VERBS line = true) ->
   (fst (_score_impact text) == 100 - impact_deductions text)%Q)
  /\ ((forall line, In line (split_on NL text) -> classifiable line = true ->
                    has_verb STRONG_VERBS line = false
                    /\ has_verb WEAK_VERBS line = true) ->
      (fst (_score_impact text) == 0)%Q).
Proof.
  intros (line0 & Hin0 & Hc0).
  destruct (count_verbs_fold (split_on NL text)
              {| strong_verb_count := 0; weak_verb_count := 0;
                 no_verb_count := 0 |}) as (Hs & Hw & Hn).
  pose proof (_score_impact_value text) as V.
  cbv zeta in Hs, Hw, Hn, V.
  cbn [strong_verb_count weak_verb_count no_verb_count Nat.add] in Hs, Hw, Hn.
  set (v := fold_left count_verbs (split_on NL text) _) in *.
  assert (D : (0 <= impact_deductions text)%Q
              /\ (impact_deductions text <= 30)%Q).
  { unfold impact_deductions.
    destruct (count_metrics text <? 3)%nat;
      destruct (5 <? list_sum _)%nat; split; vm_compute; discriminate. }
  destruct D as (D0 & D30).
  split; intros Hall.
  - assert (Ew : weak_verb_count v = 0%nat).
    { rewrite Hw, filter_none; [reflexivity|].
      intros l Hl; destruct (classifiable l) eqn:C; [|reflexivity].
      rewrite (Hall l Hl C); reflexivity. }
    assert (En : no_verb_count v = 0%nat).
    { rewrite Hn, filter_none; [reflexivity|].
      intros l Hl; destruct (classifiable l) eqn:C; [|reflexivity].
      rewrite (Hall l Hl C); reflexivity. }
    assert (Es : (1 <= strong_verb_count v)%nat).
    { rewrite Hs; apply filter_some with (x := line0); [exact Hin0|].
      now rewrite Hc0, (Hall line0 Hin0 Hc0). }
    rewrite V, Ew, En, !Nat.add_0_r.
    destruct (0 <? strong_verb_count v)%nat eqn:P;
      [|apply Nat.ltb_ge in P; lia].
    assert (R : (Qnat (strong_verb_count v) / Qnat (strong_verb_count v)
                 == 1)%Q).
    { unfold Qdiv; apply Qmult_inv_r.
      pose proof (Qnat_pos Es) as Hp; intros E; rewrite E in Hp; lra. }
    rewrite max0_Qmax, R.
    change (Qnat 0) with 0%Q.
    rewrite Q.max_r; [unfold Qdiv; ring|].
    unfold Qdiv; ring_simplify; lra.
  - assert (Es : strong_verb_count v = 0%nat).
    { rewrite Hs, filter_none; [reflexivity|].
      intros l Hl; destruct (classifiable l) eqn:C; [|reflexivity].
      destruct (Hall l Hl C) as (-> & _); reflexivity. }
    assert (En : no_verb_count v = 0%nat).
    { rewrite Hn, filter_none; [reflexivity|].
      intros l Hl; destruct (classifiable l) eqn:C; [|reflexivity].
      destruct (Hall l Hl C) as (-> & ->); reflexivity. }
    assert (Ew : (1 <= weak_verb_count v)%nat).
    { rewrite Hw; apply filter_some with (x := line0); [exact Hin0|].
      destruct (Hall line0 Hin0 Hc0) as (-> & ->); now rewrite Hc0. }
    rewrite V, Es, En, !Nat.add_0_r, Nat.add_0_l.
    destruct (0 <? weak_verb_count v)%nat eqn:P;
      [|apply Nat.ltb_ge in P; lia].
    assert (R : (Qnat (weak_verb_count v) / Qnat (weak_verb_count v)
                 == 1)%Q).
    { unfold Qdiv; apply Qmult_inv_r.
      pose proof (Qnat_pos Ew) as Hp; intros E; rewrite E in Hp; lra. }
    rewrite max0_Qmax, R.
    change (Qnat 0) with 0%Q.
    rewrite Q.max_l; [reflexivity|].
    unfold Qdiv; ring_simplify; lra.
Qed.

End ImpactVerbs.

Ltac each_line H C :=
  vm_compute in H;
  repeat (destruct H as [<-|H];
          [first [ vm_compute; repeat split; reflexivity
                 | vm_compute in C; discriminate C ] |]);
  destruct H.

Lemma polished_resume_has_a_line :
  exists line,
    In line (split_on NL polished_resume)
    /\ @classifiable basic_latin line = true.
Proof.
  exists (lit "- Led python, java and docker teams and delivered 40% growth for 3 products in 2 years").
  split; [vm_compute; find_in | reflexivity].
Defined.

Lemma weak_resume_has_a_line :
  exists line,
    In line (split_on NL weak_resume)
    /\ @classifiable basic_latin line = true.
Proof. exists weak_resume; split; [vm_compute; find_in | reflexivity]. Defined.

Lemma _score_impact_extremes_witness :
  (fst (@_score_impact basic_latin polished_resume)
   == 100 - @impact_deductions basic_latin polished_resume)%Q
  /\ (fst (@_score_impact basic_latin weak_resume) == 0)%Q.
Proof.
  split.
  - apply (proj1 (@_score_impact_extremes basic_latin polished_resume
                    polished_resume_has_a_line)).
    intros line H C; each_line H C.
  - apply (proj2 (@_score_impact_extremes basic_latin weak_resume
                    weak_resume_has_a_line)).
    intros line H C; each_line H C.
Defined.
